(** * Linereader: a two-stage line-scan inspection pipeline

    A shallow embedding of the C++ sources

    - [blocking_queue.h]    (the hand-off queue between the two stages),
    - [filter_threshold.cpp] (the 9-tap sliding-window filter and threshold),
    - [data_generator.cpp] (the CSV-backed sample source),
    - [main.cpp]           (the coordinator and the termination handshake),

    followed by the properties of the pipeline that the specification
    states about them.

    Conventions.  A [uint8_t] is a [Z] in [0, 256); the narrowing cast
    [static_cast<uint8_t>] is written out as [_ mod 256].  A [double] is a
    primitive binary64 float, so that [+], [*] and [>=] are the IEEE 754
    operations the compiled program performs.  Text written to [std::cout]
    and [std::cerr] is kept as a list of structured lines in the state. *)

From Stdlib Require Import ZArith List Bool Lia Floats Uint63 Ascii String.
Import ListNotations.

Set Warnings "-inexact-float".

(** A sample, [uint8_t] in the source. *)
Definition uint8 : Type := Z.

(** [std::pair<uint8_t, uint8_t>], the unit of transfer between the stages. *)
Definition sample_pair : Type := (uint8 * uint8)%type.

(* ================================================================= *)
(** ** blocking_queue.h *)

Module BlockingQueue.

Section WithItem.
Context {T : Type}.

(** [std::queue<T> queue_]: the head of the list is [front()]. *)
Definition t : Type := list T.

Definition new : t := [].

(** [void push(T item)]: [queue_.push(std::move(item))]. *)
Definition push (item : T) (q : t) : t := q ++ [item].

(** [T pop()]: waits until the queue is not empty.  With no other
    thread around, waiting on an empty queue never returns: [None]. *)
Definition pop (q : t) : option (T * t) :=
  match q with
  | [] => None
  | front :: rest => Some (front, rest)
  end.

(** [bool try_pop(T& item)]: the out-parameter [item] is threaded
    through; it is left alone when the queue is empty. *)
Definition try_pop (item : T) (q : t) : bool * T * t :=
  match q with
  | [] => (false, item, q)
  | front :: rest => (true, front, rest)
  end.

Definition empty (q : t) : bool :=
  match q with
  | [] => true
  | _ :: _ => false
  end.

Definition size (q : t) : nat := List.length q.

(** A single-threaded client of the queue: a script of calls and
    what each call hands back. *)
Inductive call : Type :=
| CallPush (item : T)
| CallPop
| CallTryPop.

Inductive reply : Type :=
| Pushed
| Popped (item : T)
| PopBlocks
| TryPopped (found : bool) (item : T).

Definition is_consumer (c : call) : bool :=
  match c with
  | CallPush _ => false
  | CallPop | CallTryPop => true
  end.

(** Runs a script; [item] is the caller's variable passed to
    [try_pop] by reference.  A [pop] that would block ends the
    script there. *)
Fixpoint exec (script : list call) (item : T) (q : t) : list reply * t :=
  match script with
  | [] => ([], q)
  | CallPush x :: script' =>
      let (rs, q') := exec script' item (push x q) in (Pushed :: rs, q')
  | CallPop :: script' =>
      match pop q with
      | None => ([PopBlocks], q)
      | Some (x, q1) =>
          let (rs, q') := exec script' item q1 in (Popped x :: rs, q')
      end
  | CallTryPop :: script' =>
      match try_pop item q with
      | (found, item1, q1) =>
          let (rs, q') := exec script' item1 q1 in
          (TryPopped found item1 :: rs, q')
      end
  end.

(** The elements a run of replies delivered to the caller. *)
Fixpoint delivered (rs : list reply) : list T :=
  match rs with
  | [] => []
  | Popped x :: rs' => x :: delivered rs'
  | TryPopped true x :: rs' => x :: delivered rs'
  | _ :: rs' => delivered rs'
  end.

(** The items a script pushes, in order. *)
Fixpoint pushed_items (script : list call) : list T :=
  match script with
  | [] => []
  | CallPush x :: script' => x :: pushed_items script'
  | _ :: script' => pushed_items script'
  end.

End WithItem.

Arguments t : clear implicits.
Arguments call : clear implicits.
Arguments reply : clear implicits.

End BlockingQueue.

(* ================================================================= *)
(** ** filter_threshold.cpp *)

Module FilterThreshold.

(** [const std::vector<double> FilterThreshold::FILTER_WINDOW]. *)
Definition FILTER_WINDOW : list float :=
  [0.05; 0.1; 0.15; 0.2; 0.25; 0.2; 0.15; 0.1; 0.05]%float.

Definition WINDOW_SIZE : nat := 9.
Definition PAST_ELEMENTS : nat := 4.
Definition FUTURE_ELEMENTS : nat := 4.

(** [static_cast<double>(uint8_t)]: exact. *)
Definition to_double (b : uint8) : float :=
  PrimFloat.of_uint63 (Uint63.of_Z b).

(** What the stage writes to [std::cout]. *)
Inductive cout_line : Type :=
| FilteredOutput (center : uint8) (filtered_value : float) (defect : bool)
| ProducerFinishedAndQueueEmpty
| ProcessingRemaining
| ExitingRunLoop (remaining : nat)
| RemainingElements (elems : list uint8).

(** The part of a [FilterThreshold] object that [run] changes, with
    the text it has printed so far. *)
Record state : Type := mkState {
  data_buffer_ : list uint8;
  cout : list cout_line
}.

Definition init : state := {| data_buffer_ := []; cout := [] |}.

Definition print (l : cout_line) (st : state) : state :=
  {| data_buffer_ := data_buffer_ st; cout := cout st ++ [l] |}.

(** [data_buffer_.push_back(v)]. *)
Definition push_back (v : uint8) (st : state) : state :=
  {| data_buffer_ := data_buffer_ st ++ [v]; cout := cout st |}.

(** The accumulation loop of [process_element]:
    [for (i = 0; i < WINDOW_SIZE; ++i)
       filtered_value += double(data_buffer_[i]) * FILTER_WINDOW[i];] *)
Definition filter_window (buf : list uint8) : float :=
  fold_left
    (fun filtered_value i =>
       (filtered_value + to_double (nth i buf 0%Z) * nth i FILTER_WINDOW 0)%float)
    (seq 0 WINDOW_SIZE) 0%float.

(** What one cycle of the loop in [run] observes: [running_] read
    false at the loop head, a successful [try_pop], or a failed one
    together with the values then read from [producer_finished_flag_]
    and [input_queue_.empty()]. *)
Inductive cycle : Type :=
| Stopped
| Got (received_pair : sample_pair)
| Idle (producer_finished queue_empty : bool).

Section WithThreshold.
(** [threshold_value_], fixed by the constructor. *)
Variable threshold_value_ : float.

(** [filtered_value >= threshold_value_] on doubles. *)
Definition threshold (filtered_value : float) : bool :=
  PrimFloat.leb threshold_value_ filtered_value.

Definition process_element (st : state) : state :=
  if (List.length (data_buffer_ st) <? WINDOW_SIZE)%nat then st
  else
    let filtered_value := filter_window (data_buffer_ st) in
    let defect := threshold filtered_value in
    let st1 :=
      print (FilteredOutput (nth PAST_ELEMENTS (data_buffer_ st) 0%Z)
                            filtered_value defect) st in
    {| data_buffer_ := tl (data_buffer_ st1); cout := cout st1 |}.

(** One half of the [got_item] branch of [run]: append, then
    process if the window is full. *)
Definition ingest (v : uint8) (st : state) : state :=
  let st1 := push_back v st in
  if (WINDOW_SIZE <=? List.length (data_buffer_ st1))%nat
  then process_element st1
  else st1.

Definition ingest_all (samples : list uint8) (st : state) : state :=
  fold_left (fun s v => ingest v s) samples st.

(** The main loop of [run] over the cycles it goes through.  [None]:
    the loop is still running when the observations end. *)
Fixpoint run_loop (cycles : list cycle) (st : state) : option state :=
  match cycles with
  | [] => None
  | Stopped :: _ => Some st
  | Got (first, second) :: cycles' =>
      run_loop cycles' (ingest second (ingest first st))
  | Idle producer_finished queue_empty :: cycles' =>
      if producer_finished && queue_empty
      then Some (print ProducerFinishedAndQueueEmpty st)
      else run_loop cycles' st
  end.

(** [while (data_buffer_.size() >= WINDOW_SIZE) process_element();]
    Every turn removes one element, so the buffer length bounds the
    number of turns. *)
Fixpoint drain_loop (turns : nat) (st : state) : state :=
  match turns with
  | O => st
  | S turns' =>
      if (WINDOW_SIZE <=? List.length (data_buffer_ st))%nat
      then drain_loop turns' (process_element st)
      else st
  end.

Definition drain (st : state) : state :=
  drain_loop (List.length (data_buffer_ st)) st.

(** The code after the main loop of [run]. *)
Definition finish (st : state) : state :=
  let st1 := drain (print ProcessingRemaining st) in
  let st2 := print (ExitingRunLoop (List.length (data_buffer_ st1))) st1 in
  match data_buffer_ st2 with
  | [] => st2
  | _ :: _ => print (RemainingElements (data_buffer_ st2)) st2
  end.

Definition run (cycles : list cycle) : option state :=
  match run_loop cycles init with
  | None => None
  | Some st => Some (finish st)
  end.

End WithThreshold.

(** One emitted decision: the centre sample, the filtered value and
    the thresholded bit. *)
Definition decision : Type := (uint8 * float * bool)%type.

Fixpoint decisions_of (out : list cout_line) : list decision :=
  match out with
  | [] => []
  | FilteredOutput c f d :: out' => (c, f, d) :: decisions_of out'
  | _ :: out' => decisions_of out'
  end.

Definition decisions (st : state) : list decision := decisions_of (cout st).

(** The samples a sequence of cycles feeds into the buffer, in order. *)
Fixpoint ingested (cycles : list cycle) : list uint8 :=
  match cycles with
  | [] => []
  | Stopped :: _ => []
  | Got (first, second) :: cycles' => first :: second :: ingested cycles'
  | Idle producer_finished queue_empty :: cycles' =>
      if producer_finished && queue_empty then [] else ingested cycles'
  end.

(** The window sum as the specification writes it, for the sample at
    index [i] of the whole stream: the terms
    [seq[i+k] * kernel[k+4]] for [k = -4 .. 4], added in that order in
    double precision. *)
Definition window_sum (samples : list uint8) (i : nat) : float :=
  fold_left
    (fun acc j =>
       (acc + to_double (nth (i + j - 4) samples 0%Z) * nth j FILTER_WINDOW 0)%float)
    (seq 0 9) 0%float.

(** The decision the specification assigns to the sample at index [i]
    of the stream: its subject is that sample, and it is DEFECT exactly
    when the window sum around it reaches the threshold. *)
Definition offline_decision (threshold_value_ : float)
           (samples : list uint8) (i : nat) : decision :=
  (nth i samples 0%Z,
   window_sum samples i,
   PrimFloat.leb threshold_value_ (window_sum samples i)).

(** The residual length the specification computes from the counters of
    a run: [max(0, totalIngested - firstCenterIndex - numDecisionsEmitted)]. *)
Definition residual_formula
           (totalIngested firstCenterIndex numDecisionsEmitted : Z) : Z :=
  Z.max 0 (totalIngested - firstCenterIndex - numDecisionsEmitted).

(** Five pairs and then the idle cycle that sees the producer finished
    and the queue empty: the shortest run with more than one decision. *)
Definition ten_sample_run : list cycle :=
  [Got (10, 20); Got (30, 40); Got (50, 60); Got (70, 80); Got (90, 100);
   Idle true true]%Z.

(** The decision [process_element] takes on the nine elements that
    start at position [j] of a buffer. *)
Definition window_decision (threshold_value_ : float)
           (buf : list uint8) (j : nat) : decision :=
  (nth (j + PAST_ELEMENTS) buf 0%Z,
   filter_window (skipn j buf),
   PrimFloat.leb threshold_value_ (filter_window (skipn j buf))).

(** The last lines [run] prints: the count of what is left in the
    buffer and, unless nothing is left, the elements themselves. *)
Definition final_report (buf : list uint8) : list cout_line :=
  [ProcessingRemaining; ExitingRunLoop (List.length buf)] ++
  match buf with
  | [] => []
  | _ :: _ => [RemainingElements buf]
  end.

End FilterThreshold.

(* ================================================================= *)
(** ** data_generator.cpp *)

Module DataGenerator.

(** *** The standard-library pieces the reader relies on *)

(** An input stream over a sequence of characters: what is still
    unread, and the two state bits the code looks at.  [is_open] ins
    only meaningful for the file stream. *)
Record istream : Type := mkStream {
  is_open : bool;
  unread : string;
  eofbit : bool;
  failbit : bool
}.

Definition closed_stream : istream :=
  {| is_open := false; unread := EmptyString; eofbit := false; failbit := false |}.

(** The characters up to the first [delim], and what follows it;
    [None] when the end of the input comes first. *)
Fixpoint extract (delim : ascii) (s : string) : string * option string :=
  match s with
  | EmptyString => (EmptyString, None)
  | String c s' =>
      if Ascii.eqb c delim then (EmptyString, Some s')
      else let (line, rest) := extract delim s' in (String c line, rest)
  end.

(** [std::getline(is, line, delim)].  On a stream that is not good the
    call fails and sets [failbit].  Otherwise characters are extracted
    up to and including the delimiter; running into the end of the
    input sets [eofbit], and extracting nothing at all sets [failbit].
    The first component is the line when the call succeeds. *)
Definition getline (delim : ascii) (ins : istream) : option string * istream :=
  if eofbit ins || failbit ins || negb (is_open ins) then
    (None, {| is_open := is_open ins; unread := unread ins;
              eofbit := eofbit ins; failbit := true |})
  else
    match unread ins with
    | EmptyString =>
        (None, {| is_open := true; unread := EmptyString;
                  eofbit := true; failbit := true |})
    | String _ _ =>
        match extract delim (unread ins) with
        | (line, Some rest) =>
            (Some line, {| is_open := true; unread := rest;
                           eofbit := false; failbit := false |})
        | (line, None) =>
            (Some line, {| is_open := true; unread := EmptyString;
                           eofbit := true; failbit := false |})
        end
    end.

(** The pieces successive calls of [std::getline(ss, piece, delim)] on
    a fresh stream over [s] return until the first call that fails:
    [cur] is the piece being read.  A delimiter at the very end does
    not start another piece, and the empty input has none. *)
Fixpoint pieces_from (delim : ascii) (cur : string) (s : string) : list string :=
  match s with
  | EmptyString => [cur]
  | String c s' =>
      if Ascii.eqb c delim then
        cur :: match s' with
               | EmptyString => []
               | String _ _ => pieces_from delim EmptyString s'
               end
      else pieces_from delim (cur ++ String c EmptyString) s'
  end.

Definition pieces (delim : ascii) (s : string) : list string :=
  match s with
  | EmptyString => []
  | String _ _ => pieces_from delim EmptyString s
  end.

(** [std::isspace] in the "C" locale. *)
Definition isspace (c : ascii) : bool :=
  let n := nat_of_ascii c in
  (n =? 32)%nat || ((9 <=? n)%nat && (n <=? 13)%nat).

Definition digit_of (c : ascii) : option Z :=
  let n := Z.of_nat (nat_of_ascii c) in
  if (48 <=? n)%Z && (n <=? 57)%Z then Some (n - 48)%Z else None.

Fixpoint skip_spaces (s : string) : string :=
  match s with
  | EmptyString => s
  | String c s' => if isspace c then skip_spaces s' else s
  end.

(** The value of the longest prefix of decimal digits; [None] when
    there is no digit at the front. *)
Fixpoint digits (acc : Z) (seen : bool) (s : string) : option Z :=
  match s with
  | EmptyString => if seen then Some acc else None
  | String c s' =>
      match digit_of c with
      | Some d => digits (10 * acc + d)%Z true s'
      | None => if seen then Some acc else None
      end
  end.

Definition INT_MAX : Z := 2147483647.
Definition INT_MIN : Z := -2147483648.

Inductive stoi_result : Type :=
| StoiOk (value : Z)
| InvalidArgument
| OutOfRange.

(** [std::stoi(str)] (base 10): skips leading white space, takes an
    optional sign and then as many digits as there are, ignoring
    whatever follows; throws [std::invalid_argument] when no digit was
    found and [std::out_of_range] when the value does not fit an
    [int]. *)
Definition stoi (str : string) : stoi_result :=
  let s := skip_spaces str in
  let signed :=
    match s with
    | String "-"%char s' => (true, s')
    | String "+"%char s' => (false, s')
    | _ => (false, s)
    end in
  match digits 0 false (snd signed) with
  | None => InvalidArgument
  | Some n =>
      let v := if fst signed then (- n)%Z else n in
      if (INT_MIN <=? v)%Z && (v <=? INT_MAX)%Z then StoiOk v else OutOfRange
  end.

(** [static_cast<uint8_t>(int)]: reduction modulo 256. *)
Definition to_uint8 (v : Z) : uint8 := (v mod 256)%Z.

(** *** The generator *)

(** Lines written to [std::cerr] and [std::cout]. *)
Inductive console_line : Type :=
| ErrCouldNotOpenCsv (path : string)
| ErrStreamNotOpen
| ErrInvalidArgument (line_number : Z) (cell : string)
| ErrOutOfRange (line_number : Z) (cell : string)
| WarnFewerColumns (line_number : Z) (m : Z) (count : Z)
| InfoOneElementLeft (value : uint8)
| ErrCsvModeNotOpen
| EndOfCsvData
| ExitingRunLoop.

Record state : Type := mkState {
  m_ : Z;
  csv_filepath_ : string;
  use_csv_mode_ : bool;
  running_ : bool;
  (** the values [uint8_distribution_(random_engine_)] is going to return *)
  random_engine_ : nat -> Z;
  random_drawn : nat;
  (** the file at [csv_filepath_], if it can be opened *)
  file_on_disk : option string;
  csv_file_stream_ : istream;
  current_row_values_ : list uint8;
  current_row_idx_ : nat;
  line_number_ : Z;
  csv_buffer_ : list uint8;
  output_queue_ : BlockingQueue.t sample_pair;
  console : list console_line
}.

Definition set_running (b : bool) (g : state) : state :=
  mkState (m_ g) (csv_filepath_ g) (use_csv_mode_ g) b
          (random_engine_ g) (random_drawn g) (file_on_disk g)
          (csv_file_stream_ g) (current_row_values_ g) (current_row_idx_ g)
          (line_number_ g) (csv_buffer_ g) (output_queue_ g) (console g).

Definition set_random_drawn (n : nat) (g : state) : state :=
  mkState (m_ g) (csv_filepath_ g) (use_csv_mode_ g) (running_ g)
          (random_engine_ g) n (file_on_disk g)
          (csv_file_stream_ g) (current_row_values_ g) (current_row_idx_ g)
          (line_number_ g) (csv_buffer_ g) (output_queue_ g) (console g).

Definition set_stream (f : istream) (g : state) : state :=
  mkState (m_ g) (csv_filepath_ g) (use_csv_mode_ g) (running_ g)
          (random_engine_ g) (random_drawn g) (file_on_disk g)
          f (current_row_values_ g) (current_row_idx_ g)
          (line_number_ g) (csv_buffer_ g) (output_queue_ g) (console g).

Definition set_row (row : list uint8) (idx : nat) (g : state) : state :=
  mkState (m_ g) (csv_filepath_ g) (use_csv_mode_ g) (running_ g)
          (random_engine_ g) (random_drawn g) (file_on_disk g)
          (csv_file_stream_ g) row idx
          (line_number_ g) (csv_buffer_ g) (output_queue_ g) (console g).

Definition set_line_number (n : Z) (g : state) : state :=
  mkState (m_ g) (csv_filepath_ g) (use_csv_mode_ g) (running_ g)
          (random_engine_ g) (random_drawn g) (file_on_disk g)
          (csv_file_stream_ g) (current_row_values_ g) (current_row_idx_ g)
          n (csv_buffer_ g) (output_queue_ g) (console g).

Definition set_buffer (buf : list uint8) (g : state) : state :=
  mkState (m_ g) (csv_filepath_ g) (use_csv_mode_ g) (running_ g)
          (random_engine_ g) (random_drawn g) (file_on_disk g)
          (csv_file_stream_ g) (current_row_values_ g) (current_row_idx_ g)
          (line_number_ g) buf (output_queue_ g) (console g).

Definition set_queue (q : BlockingQueue.t sample_pair) (g : state) : state :=
  mkState (m_ g) (csv_filepath_ g) (use_csv_mode_ g) (running_ g)
          (random_engine_ g) (random_drawn g) (file_on_disk g)
          (csv_file_stream_ g) (current_row_values_ g) (current_row_idx_ g)
          (line_number_ g) (csv_buffer_ g) q (console g).

Definition say (l : console_line) (g : state) : state :=
  mkState (m_ g) (csv_filepath_ g) (use_csv_mode_ g) (running_ g)
          (random_engine_ g) (random_drawn g) (file_on_disk g)
          (csv_file_stream_ g) (current_row_values_ g) (current_row_idx_ g)
          (line_number_ g) (csv_buffer_ g) (output_queue_ g) (console g ++ [l]).

Definition is_empty_string (s : string) : bool :=
  match s with
  | EmptyString => true
  | String _ _ => false
  end.

(** [csv_file_stream_.close()]. *)
Definition close (ins : istream) : istream :=
  {| is_open := false; unread := EmptyString;
     eofbit := eofbit ins; failbit := failbit ins |}.

Definition open_csv (g : state) : bool * state :=
  if negb (is_empty_string (csv_filepath_ g)) then
    match file_on_disk g with
    | Some content =>
        (true, set_stream {| is_open := true; unread := content;
                             eofbit := false; failbit := false |} g)
    | None =>
        (false, set_stream {| is_open := false; unread := EmptyString;
                              eofbit := eofbit (csv_file_stream_ g);
                              failbit := true |} g)
    end
  else (false, g).

(** The constructor. *)
Definition make (output_queue : BlockingQueue.t sample_pair) (m : Z)
           (csv_filepath : string) (disk : option string)
           (engine : nat -> Z) : state :=
  let g := mkState m csv_filepath (negb (is_empty_string csv_filepath)) true
                   engine 0 disk closed_stream [] 0 0 [] output_queue [] in
  if use_csv_mode_ g then
    let (opened, g1) := open_csv g in
    if opened then g1 else say (ErrCouldNotOpenCsv csv_filepath) g1
  else g.

Definition stop (g : state) : state :=
  let g1 := set_running false g in
  if is_open (csv_file_stream_ g1)
  then set_stream (close (csv_file_stream_ g1)) g1
  else g1.

Definition generate_random_pair (g : state) : state :=
  let val1 := to_uint8 (random_engine_ g (random_drawn g)) in
  let val2 := to_uint8 (random_engine_ g (S (random_drawn g))) in
  set_queue (BlockingQueue.push (val1, val2) (output_queue_ g))
            (set_random_drawn (S (S (random_drawn g))) g).

(** The body of [while (std::getline(ss, cell, ','))] for one cell;
    [count] is the number of cells seen before it in the row. *)
Definition read_cell (cell : string) (count : Z) (g : state) : state :=
  if (count <? m_ g)%Z || (m_ g <=? 0)%Z then
    match stoi cell with
    | StoiOk v =>
        set_row (current_row_values_ g ++ [to_uint8 v]) (current_row_idx_ g) g
    | InvalidArgument => say (ErrInvalidArgument (line_number_ g) cell) g
    | OutOfRange => say (ErrOutOfRange (line_number_ g) cell) g
    end
  else g.

Fixpoint read_cells (cells : list string) (count : Z) (g : state) : Z * state :=
  match cells with
  | [] => (count, g)
  | cell :: cells' => read_cells cells' (count + 1)%Z (read_cell cell count g)
  end.

(** What [read_csv_pair] does with a line it has just read, given the
    cells [std::getline(ss, cell, ',')] finds in it. *)
Definition read_row_cells (cells : list string) (g : state) : state :=
  let g1 := set_line_number (line_number_ g + 1)%Z g in
  let g2 := set_row [] 0 g1 in
  let (count, g3) := read_cells cells 0%Z g2 in
  if (0 <? m_ g3)%Z && (count <? m_ g3)%Z
  then say (WarnFewerColumns (line_number_ g3) (m_ g3) count) g3
  else g3.

Definition read_row (line : string) (g : state) : state :=
  read_row_cells (pieces ","%char line) g.

(** [csv_buffer_.push_back(current_row_values_[current_row_idx_++])]. *)
Definition take_from_row (g : state) : state :=
  set_row (current_row_values_ g) (S (current_row_idx_ g))
          (set_buffer (csv_buffer_ g ++
                       [nth (current_row_idx_ g) (current_row_values_ g) 0%Z]) g).

Definition is_nil {A : Type} (l : list A) : bool :=
  match l with
  | [] => true
  | _ :: _ => false
  end.

(** [while (csv_buffer_.size() < 2) ...].  Every turn either moves a
    value into the buffer or reads a line, so [turns] bounds the
    loop. *)
Fixpoint fill_buffer (turns : nat) (g : state) : state :=
  match turns with
  | O => g
  | S turns' =>
      if (List.length (csv_buffer_ g) <? 2)%nat then
        if (current_row_idx_ g <? List.length (current_row_values_ g))%nat then
          fill_buffer turns' (take_from_row g)
        else
          match getline "010"%char (csv_file_stream_ g) with
          | (Some line, ins') =>
              let g1 := read_row line (set_stream ins' g) in
              if (current_row_idx_ g1 <? List.length (current_row_values_ g1))%nat
              then fill_buffer turns' (take_from_row g1)
              else if eofbit (csv_file_stream_ g1) && is_nil (current_row_values_ g1)
                   then g1
                   else fill_buffer turns' g1
          | (None, ins') => set_stream ins' g
          end
      else g
  end.

(** Enough turns for [fill_buffer] on the file that is left. *)
Definition fill_turns (g : state) : nat :=
  String.length (unread (csv_file_stream_ g)) + 3.

Definition read_csv_pair (g : state) : bool * state :=
  let (ready, g0) :=
    if is_open (csv_file_stream_ g) then (true, g) else open_csv g in
  if negb ready then (false, say ErrStreamNotOpen g0)
  else
    let g1 := fill_buffer (fill_turns g0) g0 in
    match csv_buffer_ g1 with
    | val1 :: val2 :: rest =>
        (true, set_queue (BlockingQueue.push (val1, val2) (output_queue_ g1))
                         (set_buffer rest g1))
    | [val] =>
        if eofbit (csv_file_stream_ g1) &&
           (List.length (current_row_values_ g1) <=? current_row_idx_ g1)%nat
        then (false, set_buffer [] (say (InfoOneElementLeft val) g1))
        else (false, g1)
    | [] => (false, g1)
    end.

(** The loop of [run]; the pacing sleep changes nothing in the state.
    [None]: still running after [cycles] iterations. *)
Fixpoint run_loop (cycles : nat) (g : state) : option state :=
  if running_ g then
    match cycles with
    | O => None
    | S cycles' =>
        if use_csv_mode_ g then
          let (ok, g1) := read_csv_pair g in
          if ok then run_loop cycles' g1
          else run_loop cycles' (stop (say EndOfCsvData g1))
        else run_loop cycles' (generate_random_pair g)
    end
  else Some g.

Definition run (cycles : nat) (g : state) : option state :=
  let g0 :=
    if use_csv_mode_ g && negb (is_open (csv_file_stream_ g))
    then set_running false (say ErrCsvModeNotOpen g)
    else g in
  match run_loop cycles g0 with
  | None => None
  | Some g1 =>
      let g2 :=
        if is_open (csv_file_stream_ g1)
        then set_stream (close (csv_file_stream_ g1)) g1
        else g1 in
      Some (say ExitingRunLoop g2)
  end.

(** *** Vocabulary of the specification *)

(** The values a row contributes: the row as [read_row] leaves it,
    starting from any state with column count [m]. *)
Definition cell_values (m : Z) (cell : string) (count : Z) : list uint8 :=
  if (count <? m)%Z || (m <=? 0)%Z then
    match stoi cell with
    | StoiOk v => [to_uint8 v]
    | _ => []
    end
  else [].

Fixpoint cells_values (m : Z) (cells : list string) (count : Z) : list uint8 :=
  match cells with
  | [] => []
  | cell :: cells' => cell_values m cell count ++ cells_values m cells' (count + 1)%Z
  end.

Definition row_values (m : Z) (line : string) : list uint8 :=
  cells_values m (pieces ","%char line) 0%Z.

(** All values of the table, left to right, row by row. *)
Definition table_values (m : Z) (content : string) : list uint8 :=
  flat_map (row_values m) (pieces "010"%char content).

(** Consecutive pairs; a last value without a partner is left out. *)
Fixpoint pairs_of (values : list uint8) : list sample_pair :=
  match values with
  | val1 :: val2 :: rest => (val1, val2) :: pairs_of rest
  | _ => []
  end.

Definition is_discard_notice (l : console_line) : bool :=
  match l with
  | InfoOneElementLeft _ => true
  | _ => false
  end.

Definition is_row_warning (l : console_line) : bool :=
  match l with
  | WarnFewerColumns _ _ _ => true
  | _ => false
  end.

(** What a cell contributes when no column limit applies. *)
Definition parsed_cell (cell : string) : list uint8 :=
  match stoi cell with
  | StoiOk v => [to_uint8 v]
  | _ => []
  end.

(** A file stream as the reader keeps it: open, nothing unread once
    the end was seen, and no failure other than from the end. *)
Definition stream_ok (ins : istream) : Prop :=
  is_open ins = true /\
  (eofbit ins = true -> unread ins = EmptyString) /\
  (failbit ins = true -> eofbit ins = true).

(** The values the generator has read or is still going to read but
    has not put into a pair yet. *)
Definition pending (g : state) : list uint8 :=
  csv_buffer_ g ++
  skipn (current_row_idx_ g) (current_row_values_ g) ++
  table_values (m_ g) (unread (csv_file_stream_ g)).

Definition notices (g : state) : list console_line :=
  filter is_discard_notice (console g).

Definition row_warnings (g : state) : list console_line :=
  filter is_row_warning (console g).

(** The notice for the value left over when the number of values is
    odd. *)
Definition trailing_notice (values : list uint8) : list console_line :=
  if Nat.odd (List.length values)
  then [InfoOneElementLeft (last values 0%Z)]
  else [].

(** What no step of the CSV reader touches, short of sending a pair or
    giving up: the column count, the mode, the running flag, the
    queue, and the discard notices printed so far. *)
Definition frame (g g' : state) : Prop :=
  m_ g' = m_ g /\
  use_csv_mode_ g' = use_csv_mode_ g /\
  running_ g' = running_ g /\
  output_queue_ g' = output_queue_ g /\
  notices g' = notices g.

(** A fresh [std::stringstream ss(line)]. *)
Definition stringstream (line : string) : istream :=
  {| is_open := true; unread := line; eofbit := false; failbit := false |}.

(** [while (std::getline(ins, piece, delim)) ...]: the pieces the loop
    body sees, for at most [turns] turns. *)
Fixpoint getline_loop (turns : nat) (delim : ascii) (ins : istream) : list string :=
  match turns with
  | O => []
  | S turns' =>
      match getline delim ins with
      | (Some piece, ins') => piece :: getline_loop turns' delim ins'
      | (None, _) => []
      end
  end.

(** The samples of a sequence of pairs, in the order the consumer
    takes them: first, then second. *)
Fixpoint samples_of (pairs : list sample_pair) : list uint8 :=
  match pairs with
  | [] => []
  | (first, second) :: pairs' => first :: second :: samples_of pairs'
  end.

(** The value that finds no partner. *)
Definition leftover (values : list uint8) : list uint8 :=
  if Nat.odd (List.length values) then [last values 0%Z] else [].

Definition byte (v : Z) : Prop := (0 <= v < 256)%Z.

Definition byte_pair (p : sample_pair) : Prop := byte (fst p) /\ byte (snd p).

(** Everything the generator holds or has sent is a byte. *)
Definition only_bytes (g : state) : Prop :=
  Forall byte (csv_buffer_ g) /\
  Forall byte (current_row_values_ g) /\
  Forall byte_pair (output_queue_ g).

(** A generator in CSV mode on a file with the given content. *)
Definition csv_generator (m : Z) (content : string) : state :=
  make BlockingQueue.new m "input.csv" (Some content) (fun _ => 0%Z).

End DataGenerator.

(* ================================================================= *)
(** ** main.cpp *)

(** [main] starts [DataGenerator::run] and [FilterThreshold::run] on two
    threads, joins the first, sets [producer_is_finished], and joins
    the second.  The three threads are modelled as an interleaving of
    steps, one step per access to what they share: the queue (every
    method of which runs under its mutex) and the flag. *)

Module Main.

Inductive thread : Type :=
| Producer
| Consumer
| Coordinator.

(** [DataGenerator::run] as the other threads see it: the pairs it is
    still going to push, or the thread function has returned. *)
Inductive producer_pc : Type :=
| ProducerRunning (to_push : list sample_pair)
| ProducerExited.

(** [main] from [data_gen_thread.join()] on. *)
Inductive coordinator_pc : Type :=
| JoinProducer
| PublishFinished
| JoinConsumer
| SimulationComplete.

(** [FilterThreshold::run]: the shared accesses of one cycle of the
    loop, the code after the loop, and the return. *)
Inductive consumer_pc : Type :=
| TryPop
| ReadFinishedFlag
| CheckQueueEmpty
| Sleep
| AfterLoop
| ConsumerExited.

Record system : Type := mkSystem {
  producer : producer_pc;
  data_queue : BlockingQueue.t sample_pair;
  producer_is_finished : bool;
  coordinator : coordinator_pc;
  consumer : consumer_pc;
  filter_thresh : FilterThreshold.state
}.

(** The state right after both threads were started. *)
Definition initial (to_push : list sample_pair) : system :=
  {| producer := ProducerRunning to_push;
     data_queue := BlockingQueue.new;
     producer_is_finished := false;
     coordinator := JoinProducer;
     consumer := TryPop;
     filter_thresh := FilterThreshold.init |}.

Definition set_producer (p : producer_pc) (q : BlockingQueue.t sample_pair)
           (s : system) : system :=
  mkSystem p q (producer_is_finished s) (coordinator s) (consumer s)
           (filter_thresh s).

Definition set_coordinator (flag : bool) (c : coordinator_pc) (s : system) : system :=
  mkSystem (producer s) (data_queue s) flag c (consumer s) (filter_thresh s).

Definition set_consumer (q : BlockingQueue.t sample_pair) (c : consumer_pc)
           (f : FilterThreshold.state) (s : system) : system :=
  mkSystem (producer s) q (producer_is_finished s) (coordinator s) c f.

Section WithThreshold.
Variable tv : float.

(** One step of one thread; [None] when the thread is blocked in a
    [join] or has returned. *)
Definition step (who : thread) (s : system) : option system :=
  match who with
  | Producer =>
      match producer s with
      | ProducerRunning (p :: rest) =>
          Some (set_producer (ProducerRunning rest)
                             (BlockingQueue.push p (data_queue s)) s)
      | ProducerRunning [] => Some (set_producer ProducerExited (data_queue s) s)
      | ProducerExited => None
      end
  | Coordinator =>
      match coordinator s with
      | JoinProducer =>
          match producer s with
          | ProducerExited =>
              Some (set_coordinator (producer_is_finished s) PublishFinished s)
          | ProducerRunning _ => None
          end
      | PublishFinished => Some (set_coordinator true JoinConsumer s)
      | JoinConsumer =>
          match consumer s with
          | ConsumerExited =>
              Some (set_coordinator (producer_is_finished s) SimulationComplete s)
          | _ => None
          end
      | SimulationComplete => None
      end
  | Consumer =>
      match consumer s with
      | TryPop =>
          match BlockingQueue.try_pop (0, 0)%Z (data_queue s) with
          | (true, (first, second), q) =>
              Some (set_consumer q Sleep
                      (FilterThreshold.ingest tv second
                         (FilterThreshold.ingest tv first (filter_thresh s))) s)
          | (false, _, q) => Some (set_consumer q ReadFinishedFlag (filter_thresh s) s)
          end
      | ReadFinishedFlag =>
          if producer_is_finished s
          then Some (set_consumer (data_queue s) CheckQueueEmpty (filter_thresh s) s)
          else Some (set_consumer (data_queue s) Sleep (filter_thresh s) s)
      | CheckQueueEmpty =>
          if BlockingQueue.empty (data_queue s)
          then Some (set_consumer (data_queue s) AfterLoop
                       (FilterThreshold.print
                          FilterThreshold.ProducerFinishedAndQueueEmpty
                          (filter_thresh s)) s)
          else Some (set_consumer (data_queue s) Sleep (filter_thresh s) s)
      | Sleep => Some (set_consumer (data_queue s) TryPop (filter_thresh s) s)
      | AfterLoop =>
          Some (set_consumer (data_queue s) ConsumerExited
                  (FilterThreshold.finish tv (filter_thresh s)) s)
      | ConsumerExited => None
      end
  end.

(** The system after a schedule; scheduling a thread that cannot move
    changes nothing. *)
Fixpoint exec (schedule : list thread) (s : system) : system :=
  match schedule with
  | [] => s
  | who :: schedule' =>
      match step who s with
      | Some s' => exec schedule' s'
      | None => exec schedule' s
      end
  end.

End WithThreshold.

(** How the flag is declared: [bool producer_is_finished] in [main],
    [bool& producer_finished_flag_] in [FilterThreshold]. *)
Inductive flag_type : Type :=
| PlainBool
| AtomicBool.

Definition producer_is_finished_type : flag_type := PlainBool.

Inductive access : Type :=
| ReadFlag
| WriteFlag.

(** The access to the flag that the next step of a thread makes. *)
Definition flag_access (who : thread) (s : system) : option access :=
  match who, coordinator s, consumer s with
  | Coordinator, PublishFinished, _ => Some WriteFlag
  | Consumer, _, ReadFinishedFlag => Some ReadFlag
  | _, _, _ => None
  end.

(** A data race on the flag: the coordinator is about to write it and
    the consumer is about to read it, nothing orders the two, and the
    flag is not an atomic object. *)
Definition flag_race (s : system) : bool :=
  match flag_access Coordinator s, flag_access Consumer s, producer_is_finished_type with
  | Some WriteFlag, Some ReadFlag, PlainBool => true
  | _, _, _ => false
  end.

Definition past_loop (c : consumer_pc) : bool :=
  match c with
  | AfterLoop | ConsumerExited => true
  | _ => false
  end.

Definition producer_exited (p : producer_pc) : bool :=
  match p with
  | ProducerExited => true
  | ProducerRunning _ => false
  end.

Definition producer_joined (c : coordinator_pc) : bool :=
  match c with
  | JoinProducer => false
  | _ => true
  end.

(** What holds in every state the three threads can reach. *)
Definition handshake (s : system) : Prop :=
  (producer_joined (coordinator s) = true -> producer_exited (producer s) = true) /\
  (producer_is_finished s = true -> producer_joined (coordinator s) = true) /\
  (consumer s = CheckQueueEmpty -> producer_is_finished s = true) /\
  (past_loop (consumer s) = true ->
   producer_is_finished s = true /\ data_queue s = []) /\
  (consumer s = ConsumerExited ->
   (List.length (FilterThreshold.data_buffer_ (filter_thresh s)) < 9)%nat) /\
  (coordinator s = SimulationComplete -> consumer s = ConsumerExited).

(** What the producer has not pushed yet. *)
Definition still_to_push (p : producer_pc) : list sample_pair :=
  match p with
  | ProducerRunning to_push => to_push
  | ProducerExited => []
  end.

(** Two filter states with the same buffer and the same decisions
    printed (they may differ in the other lines printed). *)
Definition same_results (st1 st2 : FilterThreshold.state) : Prop :=
  FilterThreshold.data_buffer_ st1 = FilterThreshold.data_buffer_ st2 /\
  FilterThreshold.decisions st1 = FilterThreshold.decisions st2.

(** No pair is lost or reordered on its way: the pairs the consumer has
    received, those in the queue and those still to be pushed make up
    what the producer set out to push, and the filter is where these
    received samples put it. *)
Definition conserved (tv : float) (to_push : list sample_pair) (s : system) : Prop :=
  exists received : list sample_pair,
    received ++ data_queue s ++ still_to_push (producer s) = to_push /\
    same_results (filter_thresh s)
      (FilterThreshold.ingest_all tv (DataGenerator.samples_of received)
                                  FilterThreshold.init).

(** Past the assignment in [main], the flag is set. *)
Definition published (s : system) : Prop :=
  coordinator s = JoinConsumer \/ coordinator s = SimulationComplete ->
  producer_is_finished s = true.

(** How many steps the consumer needs at most to return, once the flag
    is set and [queued] pairs wait in the queue. *)
Definition consumer_steps_left (c : consumer_pc) (queued : nat) : nat :=
  match c, queued with
  | TryPop, _ => 2 * queued + 4
  | Sleep, _ => 2 * queued + 5
  | ReadFinishedFlag, O => 3
  | ReadFinishedFlag, _ => 2 * queued + 7
  | CheckQueueEmpty, O => 2
  | CheckQueueEmpty, _ => 2 * queued + 6
  | AfterLoop, _ => 1
  | ConsumerExited, _ => 0
  end.

(** A schedule that brings the pipeline to its end from [s]: let the
    producer finish, let [main] join it and set the flag, let the
    consumer work off the queue and return, let [main] join it. *)
Definition finishing_schedule (s : system) : list thread :=
  repeat Producer (S (List.length (still_to_push (producer s)))) ++
  [Coordinator; Coordinator] ++
  repeat Consumer
    (consumer_steps_left (consumer s)
       (List.length (data_queue s) + List.length (still_to_push (producer s)))) ++
  [Coordinator].

End Main.

(* ================================================================= *)
(** * Properties *)

(** ** The hand-off queue *)

Section QueueFacts.
Context {T : Type}.
Import BlockingQueue.

Lemma exec_pushes (xs : list T) (rest : list (call T)) (item : T) (q : t T) :
  exec (map CallPush xs ++ rest) item q =
  (repeat Pushed (List.length xs) ++ fst (exec rest item (q ++ xs)),
   snd (exec rest item (q ++ xs))).
Proof.
  revert q; induction xs as [|x xs IH]; intros q; simpl.
  - rewrite app_nil_r. now destruct (exec rest item q).
  - rewrite IH. unfold push. now rewrite <- app_assoc.
Qed.

Lemma delivered_pushed (n : nat) (rs : list (reply T)) :
  delivered (repeat Pushed n ++ rs) = delivered rs.
Proof. induction n; simpl; auto. Qed.

Lemma exec_consumers (cs : list (call T)) :
  forall (q : t T) (item : T),
    forallb is_consumer cs = true ->
    List.length cs = List.length q ->
    delivered (fst (exec cs item q)) = q /\ snd (exec cs item q) = [].
Proof.
  induction cs as [|c cs IH]; intros q item Hc Hlen.
  - destruct q; [now split | discriminate].
  - destruct q as [|x q]; [discriminate|].
    simpl in Hc. apply andb_true_iff in Hc as [Hc1 Hc2].
    injection Hlen as Hlen.
    destruct c; [discriminate | |]; simpl.
    + destruct (IH q item Hc2 Hlen) as [Hd Hq].
      destruct (exec cs item q); simpl in *. now rewrite Hd.
    + destruct (IH q x Hc2 Hlen) as [Hd Hq].
      destruct (exec cs x q); simpl in *. now rewrite Hd.
Qed.

(** C8.  On a channel nobody else touches, N pushes followed by N
    polls ([try_pop]) or takes ([pop]), mixed in any way, hand back
    exactly the pushed sequence, in order, and leave the channel
    empty.  [push] appends at the tail and always goes through, and a
    poll on an empty channel reports [found = false], removes nothing
    and leaves the caller's item alone. *)
Theorem fifo_preservation :
  (forall (xs : list T) (consumers : list (call T)) (item : T),
      forallb is_consumer consumers = true ->
      List.length consumers = List.length xs ->
      let result := exec (map CallPush xs ++ consumers) item new in
      delivered (fst result) = xs /\ snd result = new)
  /\ (forall (x : T) (q : t T),
         push x q = q ++ [x] /\ size (push x q) = S (size q))
  /\ (forall (item : T), try_pop item new = (false, item, new)).
Proof.
  split; [|split].
  - intros xs consumers item Hc Hlen result. subst result.
    rewrite exec_pushes. simpl fst. simpl snd. unfold new. simpl app.
    rewrite delivered_pushed. now apply exec_consumers.
  - intros x q. split; [reflexivity|].
    unfold size, push. rewrite length_app. simpl. lia.
  - reflexivity.
Qed.

End QueueFacts.

(** The FIFO theorem at a concrete script: three pushes, then a poll,
    a take and a poll. *)
Lemma fifo_preservation_witness :
  forallb (@BlockingQueue.is_consumer nat)
    [BlockingQueue.CallTryPop; BlockingQueue.CallPop; BlockingQueue.CallTryPop] = true /\
  List.length [@BlockingQueue.CallTryPop nat; BlockingQueue.CallPop; BlockingQueue.CallTryPop]
    = List.length [7; 8; 9] /\
  BlockingQueue.delivered
    (fst (BlockingQueue.exec
            (map BlockingQueue.CallPush [7; 8; 9] ++
             [BlockingQueue.CallTryPop; BlockingQueue.CallPop; BlockingQueue.CallTryPop])
            0 BlockingQueue.new))
    = [7; 8; 9].
Proof.
  split; [reflexivity|]. split; [reflexivity|].
  apply (proj1 (@fifo_preservation nat) [7; 8; 9]
           [BlockingQueue.CallTryPop; BlockingQueue.CallPop; BlockingQueue.CallTryPop] 0);
    reflexivity.
Defined.

(** ** The sliding-window filter *)

Section FilterFacts.
Import FilterThreshold.

Lemma decisions_of_app (xs ys : list cout_line) :
  decisions_of (xs ++ ys) = decisions_of xs ++ decisions_of ys.
Proof.
  induction xs as [|x xs IH]; simpl; [reflexivity|].
  destruct x; simpl; now rewrite IH.
Qed.

Lemma decisions_print (l : cout_line) (st : state) :
  decisions (print l st) = decisions st ++ decisions_of [l].
Proof. unfold decisions, print; simpl. apply decisions_of_app. Qed.

Lemma ingest_all_snoc tv (s : list uint8) (v : uint8) (st : state) :
  ingest_all tv (s ++ [v]) st = ingest tv v (ingest_all tv s st).
Proof. unfold ingest_all. now rewrite fold_left_app. Qed.

(** What [process_element] does to a buffer that holds a full window. *)
Lemma process_element_full tv (st : state) :
  (WINDOW_SIZE <= List.length (data_buffer_ st))%nat ->
  data_buffer_ (process_element tv st) = tl (data_buffer_ st) /\
  cout (process_element tv st) =
    cout st ++ [FilteredOutput (nth PAST_ELEMENTS (data_buffer_ st) 0%Z)
                               (filter_window (data_buffer_ st))
                               (threshold tv (filter_window (data_buffer_ st)))].
Proof.
  intros H. unfold process_element.
  destruct (Nat.ltb_spec (List.length (data_buffer_ st)) WINDOW_SIZE) as [Hlt|_];
    [lia|]. now split.
Qed.

Lemma process_element_short tv (st : state) :
  (List.length (data_buffer_ st) < WINDOW_SIZE)%nat ->
  process_element tv st = st.
Proof.
  intros H. unfold process_element.
  destruct (Nat.ltb_spec (List.length (data_buffer_ st)) WINDOW_SIZE); [reflexivity|lia].
Qed.

(** The head-aligned window of the buffer is the centred window of the
    stream: element [k] of the buffer that starts at stream position
    [j] is the sample at [j + k]. *)
Lemma window_sum_skipn (s : list uint8) (j : nat) :
  window_sum s (j + 4) = filter_window (skipn j s).
Proof.
  unfold window_sum, filter_window, WINDOW_SIZE.
  cbn [seq fold_left].
  rewrite !nth_skipn.
  repeat match goal with
         | |- context [nth (j + 4 + ?k - 4) s] =>
             replace (j + 4 + k - 4)%nat with (j + k)%nat by lia
         end.
  reflexivity.
Qed.

Lemma window_sum_app (s t : list uint8) (i : nat) :
  (i + 4 < List.length s)%nat ->
  window_sum (s ++ t) i = window_sum s i.
Proof.
  intros H. unfold window_sum. cbn [seq fold_left].
  rewrite !app_nth1 by lia. reflexivity.
Qed.

Lemma offline_decision_app tv (s t : list uint8) (i : nat) :
  (i + 4 < List.length s)%nat ->
  offline_decision tv (s ++ t) i = offline_decision tv s i.
Proof.
  intros H. unfold offline_decision.
  rewrite window_sum_app by assumption.
  rewrite app_nth1 by lia. reflexivity.
Qed.

Lemma tl_skipn {A : Type} (n : nat) (l : list A) : tl (skipn n l) = skipn (S n) l.
Proof.
  revert l; induction n as [|n IH]; intros l; [reflexivity|].
  destruct l as [|x l]; [reflexivity|]. apply IH.
Qed.

(** The state after feeding a whole stream into an empty filter: the
    buffer keeps the last (at most eight) samples, and one decision was
    printed for each stream position [j + 4] with [j + 8 < length]. *)
Lemma ingest_all_init tv (s : list uint8) :
  data_buffer_ (ingest_all tv s init) = skipn (List.length s - 8) s /\
  decisions (ingest_all tv s init) =
    map (fun j => offline_decision tv s (j + 4)) (seq 0 (List.length s - 8)).
Proof.
  induction s as [|v s [IHb IHd]] using rev_ind; [now split|].
  rewrite ingest_all_snoc. unfold ingest, push_back. cbn [data_buffer_ cout].
  rewrite IHb, !length_app, length_skipn. cbn [List.length].
  destruct (Nat.leb_spec WINDOW_SIZE
              (List.length s - (List.length s - 8) + 1)) as [Hfull|Hshort];
    unfold WINDOW_SIZE in *.
  - (* the ninth sample arrives: one decision, one pop *)
    set (st1 := {| data_buffer_ := skipn (List.length s - 8) s ++ [v];
                   cout := cout (ingest_all tv s init) |}).
    destruct (process_element_full tv st1) as [Hb Hc].
    { unfold st1, WINDOW_SIZE; cbn [data_buffer_].
      rewrite length_app, length_skipn; cbn [List.length]; lia. }
    split.
    + rewrite Hb. unfold st1; cbn [data_buffer_].
      replace (skipn (List.length s - 8) s ++ [v])
        with (skipn (List.length s - 8) (s ++ [v])).
      2:{ rewrite skipn_app. f_equal.
          replace (List.length s - 8 - List.length s)%nat with 0%nat by lia.
          reflexivity. }
      rewrite tl_skipn. f_equal. lia.
    + unfold decisions in *. rewrite Hc, decisions_of_app.
      unfold st1 at 1; cbn [cout]. rewrite IHd.
      replace (List.length s + 1 - 8)%nat with (S (List.length s - 8)) by lia.
      rewrite seq_S, map_app. f_equal.
      * apply map_ext_in. intros j Hj. apply in_seq in Hj.
        symmetry. apply offline_decision_app. lia.
      * cbn [map decisions_of Nat.add]. unfold offline_decision.
        rewrite window_sum_skipn. unfold st1; cbn [data_buffer_].
        replace (skipn (List.length s - 8) s ++ [v])
          with (skipn (List.length s - 8) (s ++ [v])).
        2:{ rewrite skipn_app. f_equal.
            replace (List.length s - 8 - List.length s)%nat with 0%nat by lia.
            reflexivity. }
        unfold PAST_ELEMENTS, threshold. rewrite nth_skipn. reflexivity.
  - (* fewer than nine samples so far: nothing is judged *)
    cbn [data_buffer_ cout]. split.
    + replace (List.length s + 1 - 8)%nat with 0%nat by lia.
      replace (List.length s - 8)%nat with 0%nat by lia. reflexivity.
    + unfold decisions in *; cbn [cout]. rewrite IHd.
      replace (List.length s + 1 - 8)%nat with 0%nat by lia.
      replace (List.length s - 8)%nat with 0%nat by lia. reflexivity.
Qed.

Lemma drain_loop_short tv (n : nat) (st : state) :
  (List.length (data_buffer_ st) < WINDOW_SIZE)%nat ->
  drain_loop tv n st = st.
Proof.
  intros H. destruct n; [reflexivity|]. cbn [drain_loop].
  destruct (Nat.leb_spec WINDOW_SIZE (List.length (data_buffer_ st))); [lia|reflexivity].
Qed.

(** The drain loop always runs to completion within its bound: it
    leaves the last eight elements of a long buffer and prints one
    decision for each element it removes. *)
Lemma drain_loop_spec tv (n : nat) :
  forall st : state,
    (List.length (data_buffer_ st) <= n + 8)%nat ->
    data_buffer_ (drain_loop tv n st)
      = skipn (List.length (data_buffer_ st) - 8) (data_buffer_ st) /\
    List.length (decisions (drain_loop tv n st))
      = (List.length (decisions st) + (List.length (data_buffer_ st) - 8))%nat.
Proof.
  induction n as [|n IH]; intros st Hn.
  - simpl. replace (List.length (data_buffer_ st) - 8)%nat with 0%nat by lia.
    split; [reflexivity|lia].
  - cbn [drain_loop].
    destruct (Nat.leb_spec WINDOW_SIZE (List.length (data_buffer_ st))) as [Hfull|Hshort];
      unfold WINDOW_SIZE in *.
    + destruct (process_element_full tv st Hfull) as [Hb Hc].
      assert (Hlen : List.length (data_buffer_ (process_element tv st))
                     = (List.length (data_buffer_ st) - 1)%nat).
      { rewrite Hb. destruct (data_buffer_ st); simpl; lia. }
      destruct (IH (process_element tv st)) as [IHb IHd]; [lia|].
      rewrite IHb, IHd, Hlen. split.
      * rewrite Hb. change (tl (data_buffer_ st)) with (skipn 1 (data_buffer_ st)).
        rewrite skipn_skipn. f_equal. lia.
      * unfold decisions. rewrite Hc, decisions_of_app, length_app. simpl. lia.
    + replace (List.length (data_buffer_ st) - 8)%nat with 0%nat by lia.
      split; [reflexivity|lia].
Qed.

Lemma drain_spec tv (st : state) :
  data_buffer_ (drain tv st)
    = skipn (List.length (data_buffer_ st) - 8) (data_buffer_ st) /\
  List.length (decisions (drain tv st))
    = (List.length (decisions st) + (List.length (data_buffer_ st) - 8))%nat.
Proof. apply drain_loop_spec. lia. Qed.

Lemma drain_short tv (st : state) :
  (List.length (data_buffer_ st) < WINDOW_SIZE)%nat -> drain tv st = st.
Proof. apply drain_loop_short. Qed.

Lemma ingest_all_init_length tv (s : list uint8) :
  (List.length (data_buffer_ (ingest_all tv s init)) < WINDOW_SIZE)%nat.
Proof.
  destruct (ingest_all_init tv s) as [Hb _]. rewrite Hb, length_skipn.
  unfold WINDOW_SIZE. lia.
Qed.

(** The main loop only ever changes the buffer through [ingest], in the
    order the samples were received. *)
Lemma run_loop_ingest_all tv (cycles : list cycle) :
  forall st st' : state,
    run_loop tv cycles st = Some st' ->
    data_buffer_ st' = data_buffer_ (ingest_all tv (ingested cycles) st) /\
    decisions st' = decisions (ingest_all tv (ingested cycles) st).
Proof.
  induction cycles as [|c cycles IH]; intros st st' H; [discriminate|].
  destruct c as [|[first second]|finished empty]; simpl in H |- *.
  - injection H as <-. now split.
  - now apply IH.
  - destruct (finished && empty).
    + injection H as <-. split; [reflexivity|].
      rewrite decisions_print. simpl. apply app_nil_r.
    + now apply IH.
Qed.

Lemma finish_spec tv (st : state) :
  (List.length (data_buffer_ st) < WINDOW_SIZE)%nat ->
  data_buffer_ (finish tv st) = data_buffer_ st /\
  decisions (finish tv st) = decisions st.
Proof.
  intros H. unfold finish.
  rewrite (drain_short tv (print ProcessingRemaining st)) by exact H.
  cbn [print data_buffer_].
  destruct (data_buffer_ st) eqn:E; cbn [data_buffer_]; rewrite ?E; split;
    try (cbn [data_buffer_]; exact E);
    unfold decisions, print; cbn [cout];
    rewrite !decisions_of_app; simpl; now rewrite !app_nil_r.
Qed.

(** A finished run, summed up: what is left in the buffer and what was
    decided, in terms of the samples received. *)
Lemma run_spec tv (cycles : list cycle) (st' : state) :
  run tv cycles = Some st' ->
  data_buffer_ st'
    = skipn (List.length (ingested cycles) - 8) (ingested cycles) /\
  decisions st'
    = map (fun j => offline_decision tv (ingested cycles) (j + 4))
          (seq 0 (List.length (ingested cycles) - 8)).
Proof.
  unfold run. destruct (run_loop tv cycles init) as [st|] eqn:E; [|discriminate].
  intros H; injection H as <-.
  destruct (run_loop_ingest_all tv cycles init st E) as [Hb Hd].
  destruct (ingest_all_init tv (ingested cycles)) as [Ib Id].
  destruct (finish_spec tv st) as [Fb Fd].
  { rewrite Hb. apply ingest_all_init_length. }
  rewrite Fb, Fd, Hb, Hd. now split.
Qed.

(** C1.  Feed any sequence of at least nine bytes, in order, into an
    empty filter and let it drain.  For every index [i] with
    [4 <= i <= length - 5] the decision number [i - 4] is the one for
    the sample at [i]: its subject is that sample, its filtered value is
    the double-precision window sum of [seq[i+k] * kernel[k+4]] over
    [k = -4 .. 4], and it says DEFECT exactly when that sum is [>=] the
    threshold.  The same holds for the decisions of a finished [run]
    and the samples it received.  Whenever a decision is made, its
    subject is the element
    at index 4 of the buffer and its value is computed from the nine
    elements at the head of the buffer. *)
Theorem window_correctness :
  (forall (tv : float) (samples : list uint8) (i : nat),
      (9 <= List.length samples)%nat ->
      (4 <= i <= List.length samples - 5)%nat ->
      nth_error (decisions (drain tv (ingest_all tv samples init))) (i - 4)
        = Some (nth i samples 0%Z,
                window_sum samples i,
                PrimFloat.leb tv (window_sum samples i)))
  /\ (forall (tv : float) (cycles : list cycle) (st : state) (i : nat),
         run tv cycles = Some st ->
         (4 <= i <= List.length (ingested cycles) - 5)%nat ->
         (9 <= List.length (ingested cycles))%nat ->
         nth_error (decisions st) (i - 4)
           = Some (nth i (ingested cycles) 0%Z,
                   window_sum (ingested cycles) i,
                   PrimFloat.leb tv (window_sum (ingested cycles) i)))
  /\ (forall (tv : float) (st : state),
         (WINDOW_SIZE <= List.length (data_buffer_ st))%nat ->
         decisions (process_element tv st)
           = decisions st ++
             [(nth 4 (data_buffer_ st) 0%Z,
               filter_window (firstn 9 (data_buffer_ st)),
               PrimFloat.leb tv (filter_window (firstn 9 (data_buffer_ st))))]).
Proof.
  assert (pick : forall tv samples i,
             (9 <= List.length samples)%nat ->
             (4 <= i <= List.length samples - 5)%nat ->
             nth_error (map (fun j => offline_decision tv samples (j + 4))
                            (seq 0 (List.length samples - 8))) (i - 4)
             = Some (offline_decision tv samples i)).
  { intros tv samples i Hlen Hi. rewrite nth_error_map, nth_error_seq.
    destruct (Nat.ltb_spec (i - 4) (List.length samples - 8)) as [_|Hge]; [|lia].
    cbn [option_map Nat.add]. replace (i - 4 + 4)%nat with i by lia.
    reflexivity. }
  split; [|split].
  - intros tv samples i Hlen Hi.
    rewrite drain_short by apply ingest_all_init_length.
    destruct (ingest_all_init tv samples) as [_ Hd]. rewrite Hd.
    now apply pick.
  - intros tv cycles st i Hrun Hi Hlen.
    destruct (run_spec tv cycles st Hrun) as [_ Hd]. rewrite Hd.
    now apply pick.
  - intros tv st Hfull.
    destruct (process_element_full tv st Hfull) as [_ Hc].
    unfold decisions. rewrite Hc, decisions_of_app.
    cbn [decisions_of]. unfold PAST_ELEMENTS, threshold.
    replace (filter_window (firstn 9 (data_buffer_ st)))
      with (filter_window (data_buffer_ st)); [reflexivity|].
    unfold filter_window, WINDOW_SIZE. cbn [seq fold_left].
    rewrite !nth_firstn. reflexivity.
Qed.

(** The window theorem on a stream of ten samples, at the sample of
    index 5, and the subject rule on a buffer of nine. *)
Lemma window_correctness_witness :
  (9 <= List.length [10; 20; 30; 40; 50; 60; 70; 80; 90; 100]%Z)%nat /\
  (4 <= 5 <= List.length [10; 20; 30; 40; 50; 60; 70; 80; 90; 100]%Z - 5)%nat /\
  nth_error
    (decisions
       (drain 60%float
          (ingest_all 60%float [10; 20; 30; 40; 50; 60; 70; 80; 90; 100]%Z init)))
    (5 - 4)
  = Some (nth 5 [10; 20; 30; 40; 50; 60; 70; 80; 90; 100]%Z 0%Z,
          window_sum [10; 20; 30; 40; 50; 60; 70; 80; 90; 100]%Z 5,
          PrimFloat.leb 60%float
            (window_sum [10; 20; 30; 40; 50; 60; 70; 80; 90; 100]%Z 5)).
Proof.
  split; [simpl; lia|]. split; [simpl; lia|].
  apply (proj1 window_correctness 60%float
           [10; 20; 30; 40; 50; 60; 70; 80; 90; 100]%Z 5); simpl; lia.
Defined.

(** C2 as stated fails: after the run of five pairs the buffer holds
    eight samples, while the formula with first centre index 4 and two
    decisions gives four. *)
Lemma residual_formula_counterexample :
  match run 1275%float ten_sample_run with
  | Some st =>
      Z.of_nat (List.length (data_buffer_ st)) <>
      residual_formula (Z.of_nat (List.length (ingested ten_sample_run)))
                       (Z.of_nat PAST_ELEMENTS)
                       (Z.of_nat (List.length (decisions st)))
  | None => False
  end.
Proof. vm_compute. discriminate. Qed.

(** C2, amended.  After a finished run (main loop, then drain) the
    residual buffer holds fewer than nine samples, and its length is the
    number of samples ingested minus the number of decisions emitted,
    which is [min(totalIngested, 8)]: the residual is the last eight
    samples of the stream, or all of them when there were fewer.  The
    drain loop on its own leaves fewer than nine elements whatever
    buffer it starts from. *)
Theorem residual_bound :
  (forall (tv : float) (cycles : list cycle) (st : state),
      run tv cycles = Some st ->
      let totalIngested := Z.of_nat (List.length (ingested cycles)) in
      let numDecisionsEmitted := Z.of_nat (List.length (decisions st)) in
      (List.length (data_buffer_ st) < 9)%nat /\
      Z.of_nat (List.length (data_buffer_ st))
        = (totalIngested - numDecisionsEmitted)%Z /\
      Z.of_nat (List.length (data_buffer_ st)) = Z.min totalIngested 8 /\
      data_buffer_ st
        = skipn (List.length (ingested cycles) - 8) (ingested cycles))
  /\ (forall (tv : float) (st : state),
         (List.length (data_buffer_ (drain tv st)) < 9)%nat).
Proof.
  split.
  - intros tv cycles st H. destruct (run_spec tv cycles st H) as [Hb Hd].
    cbn zeta. rewrite Hb, Hd, length_map, length_seq, length_skipn.
    repeat split; lia.
  - intros tv st. destruct (drain_spec tv st) as [Hb _].
    rewrite Hb, length_skipn. lia.
Qed.

Lemma residual_bound_witness :
  exists st : state,
    run 1275%float ten_sample_run = Some st /\
    Z.of_nat (List.length (data_buffer_ st))
      = Z.min (Z.of_nat (List.length (ingested ten_sample_run))) 8.
Proof.
  destruct (run 1275%float ten_sample_run) as [st|] eqn:E;
    [|vm_compute in E; discriminate E].
  exists st. split; [reflexivity|].
  exact (proj1 (proj2 (proj2 (proj1 residual_bound 1275%float ten_sample_run st E)))).
Defined.

(** C3.  A finished run (main loop, then drain) emits exactly
    [max(0, totalSamplesIngested - 8)] decisions, and so does feeding
    any sequence of samples one by one and draining.  An ingest that
    brings the buffer to nine elements or more prints exactly one
    decision and then removes exactly the head element; any other
    ingest only appends. *)
Theorem no_fabricated_decisions :
  (forall (tv : float) (cycles : list cycle) (st : state),
      run tv cycles = Some st ->
      Z.of_nat (List.length (decisions st))
        = Z.max 0 (Z.of_nat (List.length (ingested cycles)) - 8))
  /\ (forall (tv : float) (samples : list uint8),
         Z.of_nat (List.length (decisions (drain tv (ingest_all tv samples init))))
           = Z.max 0 (Z.of_nat (List.length samples) - 8))
  /\ (forall (tv : float) (v : uint8) (st : state),
         if (WINDOW_SIZE <=? List.length (data_buffer_ st ++ [v]))%nat
         then
           (exists d : decision, decisions (ingest tv v st) = decisions st ++ [d]) /\
           data_buffer_ (ingest tv v st) = tl (data_buffer_ st ++ [v]) /\
           List.length (data_buffer_ (ingest tv v st))
             = List.length (data_buffer_ st)
         else
           ingest tv v st = push_back v st /\
           decisions (ingest tv v st) = decisions st).
Proof.
  split; [|split].
  - intros tv cycles st H. destruct (run_spec tv cycles st H) as [_ Hd].
    rewrite Hd, length_map, length_seq. lia.
  - intros tv samples.
    rewrite drain_short by apply ingest_all_init_length.
    destruct (ingest_all_init tv samples) as [_ Hd].
    rewrite Hd, length_map, length_seq. lia.
  - intros tv v st. unfold ingest. cbn [push_back data_buffer_].
    destruct (Nat.leb_spec WINDOW_SIZE (List.length (data_buffer_ st ++ [v])))
      as [Hfull|Hshort].
    + destruct (process_element_full tv (push_back v st) Hfull) as [Hb Hc].
      fold (push_back v st). split; [|split].
      * eexists. unfold decisions. rewrite Hc, decisions_of_app. reflexivity.
      * exact Hb.
      * rewrite Hb. cbn [push_back data_buffer_].
        destruct (data_buffer_ st); simpl; [reflexivity|].
        rewrite length_app; simpl; lia.
    + split; reflexivity.
Qed.

Lemma no_fabricated_decisions_witness :
  exists st : state,
    run 1275%float ten_sample_run = Some st /\
    Z.of_nat (List.length (decisions st))
      = Z.max 0 (Z.of_nat (List.length (ingested ten_sample_run)) - 8).
Proof.
  destruct (run 1275%float ten_sample_run) as [st|] eqn:E;
    [|vm_compute in E; discriminate E].
  exists st. split; [reflexivity|].
  exact (proj1 no_fabricated_decisions 1275%float ten_sample_run st E).
Defined.

(** C7 as stated fails: nine samples of value 100 do not filter to
    100.0, because the kernel weights add up to 1.25, not to 1. *)
Lemma nine_hundreds_do_not_filter_to_100 :
  map (fun d : decision => snd (fst d))
      (decisions (ingest_all 1275%float (repeat 100%Z 9) init))
  <> [100%float].
Proof.
  intros H.
  assert (E : PrimFloat.eqb
                (hd 0%float
                    (map (fun d : decision => snd (fst d))
                         (decisions (ingest_all 1275%float (repeat 100%Z 9) init))))
                100%float = true)
    by (rewrite H; reflexivity).
  vm_compute in E. discriminate E.
Qed.

(** C7, amended.  For the fixed kernel and nine samples of value 100
    the filtered value is 125.0; the one decision emitted is
    NO_DEFECT for TV = 1275.0 and DEFECT for TV = 50.0, and its
    subject is the sample 100. *)
Theorem nine_hundreds_scenario :
  decisions (ingest_all 1275%float (repeat 100%Z 9) init)
    = [(100%Z, 125%float, false)] /\
  decisions (ingest_all 50%float (repeat 100%Z 9) init)
    = [(100%Z, 125%float, true)].
Proof. split; vm_compute; reflexivity. Qed.

Lemma window_decision_tl (tv : float) (buf : list uint8) (j : nat) :
  window_decision tv buf (S j) = window_decision tv (tl buf) j.
Proof.
  unfold window_decision, PAST_ELEMENTS.
  destruct buf as [|x buf]; [now destruct j|reflexivity].
Qed.

Lemma drain_loop_decisions (tv : float) (n : nat) :
  forall st : state,
    (List.length (data_buffer_ st) <= n + 8)%nat ->
    decisions (drain_loop tv n st)
    = decisions st ++
      map (window_decision tv (data_buffer_ st))
          (seq 0 (List.length (data_buffer_ st) - 8)).
Proof.
  induction n as [|n IH]; intros st Hn.
  - cbn [drain_loop].
    replace (List.length (data_buffer_ st) - 8)%nat with 0%nat by lia.
    cbn. now rewrite app_nil_r.
  - cbn [drain_loop].
    destruct (Nat.leb_spec WINDOW_SIZE (List.length (data_buffer_ st))) as [Hfull|Hshort];
      unfold WINDOW_SIZE in *.
    + destruct (process_element_full tv st Hfull) as [Hb Hc].
      assert (Hlen : List.length (tl (data_buffer_ st))
                     = (List.length (data_buffer_ st) - 1)%nat)
        by (destruct (data_buffer_ st); cbn; lia).
      rewrite IH by (rewrite Hb, Hlen; lia).
      rewrite Hb, Hlen. unfold decisions at 1. rewrite Hc, decisions_of_app.
      fold (decisions st). rewrite <- app_assoc. f_equal.
      replace (List.length (data_buffer_ st) - 8)%nat
        with (S (List.length (data_buffer_ st) - 1 - 8)) by lia.
      cbn [seq map decisions_of app]. f_equal.
      rewrite <- seq_shift, map_map. apply map_ext.
      intros j. symmetry. apply window_decision_tl.
    + replace (List.length (data_buffer_ st) - 8)%nat with 0%nat by lia.
      cbn. now rewrite app_nil_r.
Qed.

(** The code after the main loop, on any buffer: the loop in it takes
    one decision for each full window that is left, in order, and
    removes one element for each; the lines printed around it are no
    decisions and leave the buffer alone. *)
Lemma finish_drains (tv : float) (st : state) :
  data_buffer_ (finish tv st)
    = skipn (List.length (data_buffer_ st) - 8) (data_buffer_ st) /\
  decisions (finish tv st)
    = decisions st ++
      map (window_decision tv (data_buffer_ st))
          (seq 0 (List.length (data_buffer_ st) - 8)).
Proof.
  unfold finish.
  destruct (drain_spec tv (print ProcessingRemaining st)) as [Hb _].
  pose proof (drain_loop_decisions tv
                (List.length (data_buffer_ (print ProcessingRemaining st)))
                (print ProcessingRemaining st) ltac:(lia)) as Hd.
  fold (drain tv (print ProcessingRemaining st)) in Hd.
  set (st1 := drain tv (print ProcessingRemaining st)) in *.
  rewrite decisions_print in Hd. cbn [decisions_of app] in Hd.
  rewrite app_nil_r in Hd.
  cbn [print data_buffer_] in Hb, Hd.
  assert (H : forall st2 : state,
             data_buffer_ st2 = data_buffer_ st1 ->
             decisions st2 = decisions st1 ->
             data_buffer_ st2
               = skipn (List.length (data_buffer_ st) - 8) (data_buffer_ st) /\
             decisions st2
               = decisions st ++
                 map (window_decision tv (data_buffer_ st))
                     (seq 0 (List.length (data_buffer_ st) - 8)))
    by (intros st2 E1 E2; split; congruence).
  cbn [print data_buffer_].
  destruct (data_buffer_ st1) eqn:E; apply H;
    cbn [print data_buffer_]; rewrite ?E; try reflexivity;
    unfold decisions, print; cbn [cout];
    rewrite !decisions_of_app; cbn [decisions_of]; now rewrite !app_nil_r.
Qed.

End FilterFacts.

(** ** The CSV reader *)

Section GeneratorFacts.
Import DataGenerator.

(** The stream model on small inputs. *)
Example pieces_of_a_row :
  pieces ","%char "1,2," = ["1"; "2"]%string /\
  pieces ","%char "1,,2" = ["1"; ""; "2"]%string /\
  pieces ","%char "," = [""]%string /\
  pieces ","%char "" = [].
Proof. repeat split; reflexivity. Qed.

Example getline_at_the_end_of_a_file :
  let f := {| is_open := true; unread := "7"; eofbit := false; failbit := false |} in
  fst (getline "010"%char f) = Some "7"%string /\
  eofbit (snd (getline "010"%char f)) = true /\
  fst (getline "010"%char (snd (getline "010"%char f))) = None.
Proof. repeat split; reflexivity. Qed.

Example stoi_on_cells :
  stoi " -1x" = StoiOk (-1) /\
  stoi "12abc" = StoiOk 12 /\
  stoi "abc" = InvalidArgument /\
  stoi "" = InvalidArgument /\
  stoi "99999999999" = OutOfRange /\
  stoi "-2147483648" = StoiOk INT_MIN.
Proof. repeat split; reflexivity. Qed.

Lemma frame_refl (g : state) : frame g g.
Proof. now repeat split. Qed.

Lemma frame_trans (g1 g2 g3 : state) : frame g1 g2 -> frame g2 g3 -> frame g1 g3.
Proof.
  unfold frame. intros (A1 & A2 & A3 & A4 & A5) (B1 & B2 & B3 & B4 & B5).
  repeat split; congruence.
Qed.


(** One cell: what it adds to the row and to the console. *)
Lemma read_cell_spec (cell : string) (count : Z) (g : state) :
  frame g (read_cell cell count g) /\
  csv_file_stream_ (read_cell cell count g) = csv_file_stream_ g /\
  csv_buffer_ (read_cell cell count g) = csv_buffer_ g /\
  line_number_ (read_cell cell count g) = line_number_ g /\
  current_row_idx_ (read_cell cell count g) = current_row_idx_ g /\
  row_warnings (read_cell cell count g) = row_warnings g /\
  current_row_values_ (read_cell cell count g)
    = current_row_values_ g ++ cell_values (m_ g) cell count.
Proof.
  unfold read_cell, cell_values, frame, notices, row_warnings.
  destruct ((count <? m_ g)%Z || (m_ g <=? 0)%Z);
    [destruct (stoi cell)|]; cbn; rewrite ?filter_app, ?app_nil_r; cbn;
    rewrite ?app_nil_r; repeat split; reflexivity.
Qed.

Lemma read_cells_spec (cells : list string) :
  forall (count : Z) (g : state),
    fst (read_cells cells count g) = (count + Z.of_nat (List.length cells))%Z /\
    frame g (snd (read_cells cells count g)) /\
    csv_file_stream_ (snd (read_cells cells count g)) = csv_file_stream_ g /\
    csv_buffer_ (snd (read_cells cells count g)) = csv_buffer_ g /\
    line_number_ (snd (read_cells cells count g)) = line_number_ g /\
    current_row_idx_ (snd (read_cells cells count g)) = current_row_idx_ g /\
    row_warnings (snd (read_cells cells count g)) = row_warnings g /\
    current_row_values_ (snd (read_cells cells count g))
      = current_row_values_ g ++ cells_values (m_ g) cells count.
Proof.
  induction cells as [|cell cells IH]; intros count g; cbn [read_cells cells_values].
  - cbn. rewrite app_nil_r, Z.add_0_r. repeat split; reflexivity.
  - destruct (read_cell_spec cell count g) as (F & S1 & B1 & L1 & I1 & W1 & V1).
    destruct (IH (count + 1)%Z (read_cell cell count g))
      as (C2 & F2 & S2 & B2 & L2 & I2 & W2 & V2).
    assert (M : m_ (read_cell cell count g) = m_ g) by apply F.
    pose proof (frame_trans _ _ _ F F2) as F3.
    rewrite C2, S2, B2, L2, I2, W2, V2, S1, B1, L1, I1, W1, V1, M, <- app_assoc.
    repeat split; try reflexivity; try apply F3.
    cbn [List.length]. lia.
Qed.

(** Past the first [m] cells of a row, nothing happens at all. *)
Lemma read_cells_beyond (cells : list string) :
  forall (count : Z) (g : state),
    (0 < m_ g <= count)%Z ->
    snd (read_cells cells count g) = g.
Proof.
  induction cells as [|cell cells IH]; intros count g H; cbn [read_cells];
    [reflexivity|].
  assert (E : read_cell cell count g = g).
  { unfold read_cell.
    destruct (Z.ltb_spec count (m_ g)); [lia|].
    destruct (Z.leb_spec (m_ g) 0); [lia|]. reflexivity. }
  rewrite E. apply IH. lia.
Qed.

Lemma read_cells_app (xs ys : list string) :
  forall (count : Z) (g : state),
    read_cells (xs ++ ys) count g
    = read_cells ys (count + Z.of_nat (List.length xs))%Z (snd (read_cells xs count g)).
Proof.
  induction xs as [|x xs IH]; intros count g.
  - cbn. now rewrite Z.add_0_r.
  - cbn [app read_cells List.length]. rewrite IH. f_equal. lia.
Qed.

Lemma cells_values_unlimited (m : Z) (cells : list string) :
  (m <= 0)%Z ->
  forall count : Z, cells_values m cells count = flat_map parsed_cell cells.
Proof.
  intros Hm. induction cells as [|cell cells IH]; intros count; [reflexivity|].
  cbn [cells_values flat_map]. rewrite IH. f_equal.
  unfold cell_values, parsed_cell.
  destruct (Z.leb_spec m 0); [|lia]. now rewrite orb_true_r.
Qed.

(** A whole row. *)
Lemma read_row_cells_spec (cells : list string) (g : state) :
  frame g (read_row_cells cells g) /\
  csv_file_stream_ (read_row_cells cells g) = csv_file_stream_ g /\
  csv_buffer_ (read_row_cells cells g) = csv_buffer_ g /\
  line_number_ (read_row_cells cells g) = (line_number_ g + 1)%Z /\
  current_row_idx_ (read_row_cells cells g) = 0%nat /\
  current_row_values_ (read_row_cells cells g) = cells_values (m_ g) cells 0 /\
  row_warnings (read_row_cells cells g)
    = row_warnings g ++
      (if (0 <? m_ g)%Z && (Z.of_nat (List.length cells) <? m_ g)%Z
       then [WarnFewerColumns (line_number_ g + 1) (m_ g)
                              (Z.of_nat (List.length cells))]
       else []).
Proof.
  unfold read_row_cells.
  set (g2 := set_row [] 0 (set_line_number (line_number_ g + 1) g)).
  destruct (read_cells_spec cells 0%Z g2) as (C & F & S1 & B1 & L1 & I1 & W1 & V1).
  destruct (read_cells cells 0%Z g2) as [count g3]. cbn [fst snd] in *.
  assert (M : m_ g3 = m_ g) by apply F.
  rewrite M, L1, C, Z.add_0_l.
  destruct ((0 <? m_ g)%Z && (Z.of_nat (List.length cells) <? m_ g)%Z).
  - unfold frame, notices, row_warnings in *. cbn.
    rewrite !filter_app. cbn. rewrite app_nil_r.
    destruct F as (F1 & F2 & F3 & F4 & F5).
    repeat split; try assumption; try (now rewrite W1).
  - rewrite app_nil_r. repeat split; try assumption; apply F.
Qed.



(** C10.  With a positive column count [m], a row behaves exactly as
    its first [m] cells: whatever follows them is not parsed, adds no
    value and leaves no trace on the console.  The short-row warning
    is printed exactly for rows of fewer than [m] cells.  With
    [m <= 0] every cell of the row is parsed and no row is warned
    about. *)
Theorem extra_cells_are_dropped :
  (forall (cells : list string) (g : state),
      (0 < m_ g)%Z ->
      read_row_cells cells g
        = read_row_cells (firstn (Z.to_nat (m_ g)) cells) g)
  /\ (forall (cells : list string) (g : state),
         (0 < m_ g)%Z ->
         row_warnings (read_row_cells cells g)
           = row_warnings g ++
             (if (Z.of_nat (List.length cells) <? m_ g)%Z
              then [WarnFewerColumns (line_number_ g + 1) (m_ g)
                                     (Z.of_nat (List.length cells))]
              else []))
  /\ (forall (cells : list string) (g : state),
         (m_ g <= 0)%Z ->
         current_row_values_ (read_row_cells cells g) = flat_map parsed_cell cells /\
         row_warnings (read_row_cells cells g) = row_warnings g).
Proof.
  split; [|split].
  - intros cells g Hm.
    destruct (Nat.le_gt_cases (List.length cells) (Z.to_nat (m_ g))) as [Hle|Hgt].
    + now rewrite firstn_all2.
    + rewrite <- (firstn_skipn (Z.to_nat (m_ g)) cells) at 1.
      unfold read_row_cells.
      set (g2 := set_row [] 0 (set_line_number (line_number_ g + 1) g)).
      rewrite read_cells_app.
      set (r := read_cells (firstn (Z.to_nat (m_ g)) cells) 0 g2).
      destruct (read_cells_spec (firstn (Z.to_nat (m_ g)) cells) 0%Z g2)
        as (C & F & _). fold r in C, F.
      assert (M : m_ (snd r) = m_ g) by apply F.
      assert (Hlen : List.length (firstn (Z.to_nat (m_ g)) cells) = Z.to_nat (m_ g))
        by (rewrite length_firstn; lia).
      set (n := (0 + Z.of_nat (List.length (firstn (Z.to_nat (m_ g)) cells)))%Z) in *.
      destruct (read_cells_spec (skipn (Z.to_nat (m_ g)) cells) n (snd r))
        as (C' & _).
      pose proof (read_cells_beyond (skipn (Z.to_nat (m_ g)) cells) n (snd r)) as B.
      rewrite M in B. specialize (B ltac:(lia)).
      destruct (read_cells (skipn (Z.to_nat (m_ g)) cells) n (snd r)) as [count' g'].
      destruct r as [count g3].
      cbn [fst snd] in *. subst g'. rewrite M.
      destruct (Z.ltb_spec count' (m_ g)); [lia|].
      destruct (Z.ltb_spec count (m_ g)); [lia|].
      now rewrite !andb_false_r.
  - intros cells g Hm.
    destruct (read_row_cells_spec cells g) as (_ & _ & _ & _ & _ & _ & W).
    rewrite W. destruct (Z.ltb_spec 0 (m_ g)); [reflexivity|lia].
  - intros cells g Hm.
    destruct (read_row_cells_spec cells g) as (_ & _ & _ & _ & _ & V & W).
    rewrite V, W. split; [now apply cells_values_unlimited|].
    destruct (Z.ltb_spec 0 (m_ g)); [lia|]. apply app_nil_r.
Qed.

Lemma extra_cells_are_dropped_witness :
  (0 < m_ (csv_generator 2 ""))%Z /\
  current_row_values_ (read_row_cells ["1"; "2"; "3"; "x"]%string (csv_generator 2 ""))
    = [1; 2]%Z /\
  console (read_row_cells ["1"; "2"; "3"; "x"]%string (csv_generator 2 "")) = [].
Proof.
  split; [reflexivity|].
  rewrite (proj1 extra_cells_are_dropped ["1"; "2"; "3"; "x"]%string
             (csv_generator 2 "")); [|reflexivity].
  split; reflexivity.
Defined.

Lemma append_empty_r (s : string) : (s ++ "")%string = s.
Proof. induction s as [|c s IH]; cbn; [reflexivity|now rewrite IH]. Qed.

Lemma append_snoc (cur : string) (c : ascii) (l : string) :
  ((cur ++ String c "") ++ l)%string = (cur ++ String c l)%string.
Proof. induction cur as [|d cur IH]; cbn; [reflexivity|now rewrite IH]. Qed.

(** [pieces] lists what repeated extraction returns. *)
Lemma pieces_from_extract (delim : ascii) (s : string) :
  forall cur : string,
    pieces_from delim cur s
    = (cur ++ fst (extract delim s))%string ::
      match snd (extract delim s) with
      | Some rest => pieces delim rest
      | None => []
      end.
Proof.
  induction s as [|c s IH]; intros cur; cbn [pieces_from extract].
  - cbn. now rewrite append_empty_r.
  - destruct (Ascii.eqb c delim).
    + cbn. rewrite append_empty_r. reflexivity.
    + rewrite IH. destruct (extract delim s) as [line rest]. cbn [fst snd].
      now rewrite append_snoc.
Qed.

Lemma extract_shorter (delim : ascii) (s : string) :
  forall rest : string,
    snd (extract delim s) = Some rest ->
    (String.length rest < String.length s)%nat.
Proof.
  induction s as [|c s IH]; intros rest; cbn [extract]; [discriminate|].
  destruct (Ascii.eqb c delim).
  - cbn. intros H; injection H as <-. lia.
  - destruct (extract delim s) as [line r]. cbn [snd] in *.
    intros H. specialize (IH rest H). cbn. lia.
Qed.

(** One call of [getline] on the file stream. *)
Lemma getline_spec (delim : ascii) (ins : istream) :
  stream_ok ins ->
  match getline delim ins with
  | (Some line, ins') =>
      stream_ok ins' /\
      pieces delim (unread ins) = line :: pieces delim (unread ins') /\
      (String.length (unread ins') < String.length (unread ins))%nat
  | (None, ins') =>
      stream_ok ins' /\ eofbit ins' = true /\
      unread ins = EmptyString /\ unread ins' = EmptyString
  end.
Proof.
  intros (Ho & He & Hf). unfold getline. rewrite Ho. cbn [negb].
  destruct (eofbit ins) eqn:E; cbn [orb].
  - unfold stream_ok; cbn. rewrite (He eq_refl). repeat split; auto.
  - destruct (failbit ins) eqn:F; [specialize (Hf eq_refl); discriminate|].
    cbn [orb]. destruct (unread ins) as [|c s] eqn:U.
    + unfold stream_ok; cbn. repeat split; auto.
    + pose proof (pieces_from_extract delim (String c s) EmptyString) as P.
      pose proof (extract_shorter delim (String c s)) as L.
      destruct (extract delim (String c s)) as [line [rest|]];
        cbn [fst snd] in *; unfold stream_ok; cbn [is_open unread eofbit failbit].
      * repeat split; try discriminate; [exact P | now apply L].
      * repeat split; auto; try exact P; cbn; lia.
Qed.

Lemma skipn_nth_cons {A : Type} (l : list A) (d : A) :
  forall n : nat, (n < List.length l)%nat -> skipn n l = nth n l d :: skipn (S n) l.
Proof.
  induction l as [|x l IH]; intros n H; [cbn in H; lia|].
  destruct n as [|n]; [reflexivity|]. cbn [skipn nth].
  rewrite IH by (cbn in H; lia). reflexivity.
Qed.

Lemma take_from_row_spec (g : state) :
  (current_row_idx_ g < List.length (current_row_values_ g))%nat ->
  frame g (take_from_row g) /\
  csv_file_stream_ (take_from_row g) = csv_file_stream_ g /\
  pending (take_from_row g) = pending g /\
  List.length (csv_buffer_ (take_from_row g)) = S (List.length (csv_buffer_ g)).
Proof.
  intros H. unfold take_from_row, pending, frame, notices.
  cbn [m_ use_csv_mode_ running_ output_queue_ console csv_file_stream_
       csv_buffer_ current_row_idx_ current_row_values_ set_row set_buffer].
  repeat split.
  - rewrite (skipn_nth_cons (current_row_values_ g) 0%Z _ H).
    now rewrite <- app_assoc.
  - rewrite length_app. cbn. lia.
Qed.

(** The loop that fills the pair buffer loses no value and stops short
    of two values only at the end of the table. *)
Lemma fill_buffer_spec (turns : nat) :
  forall g : state,
    stream_ok (csv_file_stream_ g) ->
    (List.length (csv_buffer_ g) <= 2)%nat ->
    (String.length (unread (csv_file_stream_ g))
     + (2 - List.length (csv_buffer_ g)) < turns)%nat ->
    frame g (fill_buffer turns g) /\
    stream_ok (csv_file_stream_ (fill_buffer turns g)) /\
    pending (fill_buffer turns g) = pending g /\
    (List.length (csv_buffer_ (fill_buffer turns g)) <= 2)%nat /\
    ((List.length (csv_buffer_ (fill_buffer turns g)) < 2)%nat ->
     eofbit (csv_file_stream_ (fill_buffer turns g)) = true /\
     (List.length (current_row_values_ (fill_buffer turns g))
      <= current_row_idx_ (fill_buffer turns g))%nat).
Proof.
  induction turns as [|turns IH]; intros g Hok Hbuf Hturns; [lia|].
  cbn [fill_buffer].
  destruct (Nat.ltb_spec (List.length (csv_buffer_ g)) 2) as [Hshort|Hfull].
  2:{ repeat split; try apply Hok; try lia. }
  destruct (Nat.ltb_spec (current_row_idx_ g) (List.length (current_row_values_ g)))
    as [Hrow|Hrow].
  - (* a value of the current row *)
    destruct (take_from_row_spec g Hrow) as (F & S1 & P & L).
    destruct (IH (take_from_row g)) as (F' & S' & P' & L' & E');
      [now rewrite S1 | lia | rewrite S1; lia |].
    split; [exact (frame_trans _ _ _ F F')|].
    split; [assumption|]. split; [congruence|]. split; assumption.
  - (* the current row is used up: read the next line *)
    pose proof (getline_spec "010"%char (csv_file_stream_ g) Hok) as G.
    destruct (getline "010"%char (csv_file_stream_ g)) as [[line|] ins'].
    + destruct G as (Hok' & Hpieces & Hlen).
      unfold read_row.
      destruct (read_row_cells_spec (pieces ","%char line) (set_stream ins' g))
        as (F1 & S1 & B1 & _ & I1 & V1 & _).
      set (g1 := read_row_cells (pieces ","%char line) (set_stream ins' g)) in *.
      cbn [set_stream csv_file_stream_ csv_buffer_ m_] in S1, B1, V1.
      assert (Fg : frame g g1).
      { refine (frame_trans g (set_stream ins' g) g1 _ F1). now repeat split. }
      assert (Pg : pending g1 = pending g).
      { unfold pending. rewrite S1, B1, I1, V1.
        assert (M : m_ g1 = m_ g) by apply Fg. rewrite M.
        rewrite (skipn_all2 (current_row_values_ g)) by exact Hrow.
        unfold table_values. rewrite Hpieces. cbn [flat_map skipn app].
        reflexivity. }
      destruct (Nat.ltb_spec (current_row_idx_ g1) (List.length (current_row_values_ g1)))
        as [Hrow1|Hrow1].
      * destruct (take_from_row_spec g1 Hrow1) as (F2 & S2 & P2 & L2).
        destruct (IH (take_from_row g1)) as (F' & S' & P' & L' & E');
          [now rewrite S2, S1 | rewrite L2, B1; lia
          | rewrite S2, S1, L2, B1; lia |].
        split; [exact (frame_trans _ _ _ Fg (frame_trans _ _ _ F2 F'))|].
        split; [assumption|]. split; [congruence|]. split; assumption.
      * destruct (eofbit (csv_file_stream_ g1) && is_nil (current_row_values_ g1))
          eqn:Stop.
        -- apply andb_true_iff in Stop as [Heof _].
           split; [exact Fg|]. split; [now rewrite S1|]. split; [exact Pg|].
           split; [rewrite B1; lia|]. intros _. split; [exact Heof|exact Hrow1].
        -- destruct (IH g1) as (F' & S' & P' & L' & E');
             [now rewrite S1 | rewrite B1; lia | rewrite S1, B1; lia |].
           split; [exact (frame_trans _ _ _ Fg F')|].
           split; [assumption|]. split; [congruence|]. split; assumption.
    + destruct G as (Hok' & Heof & Hu & Hu').
      split; [now repeat split|]. split; [exact Hok'|].
      split.
      { unfold pending. cbn [set_stream csv_file_stream_ csv_buffer_ m_
                             current_row_idx_ current_row_values_].
        now rewrite Hu, Hu'. }
      cbn [set_stream csv_file_stream_ csv_buffer_ current_row_idx_
           current_row_values_].
      split; [lia|]. intros _. split; [exact Heof|exact Hrow].
Qed.

Lemma table_values_empty (m : Z) : table_values m EmptyString = [].
Proof. reflexivity. Qed.

(** One call of [read_csv_pair] on an open file, by the values that
    are still to come. *)
Lemma read_csv_pair_spec (g : state) :
  stream_ok (csv_file_stream_ g) ->
  (List.length (csv_buffer_ g) <= 2)%nat ->
  m_ (snd (read_csv_pair g)) = m_ g /\
  use_csv_mode_ (snd (read_csv_pair g)) = use_csv_mode_ g /\
  running_ (snd (read_csv_pair g)) = running_ g /\
  match pending g with
  | val1 :: val2 :: rest =>
      fst (read_csv_pair g) = true /\
      output_queue_ (snd (read_csv_pair g)) = output_queue_ g ++ [(val1, val2)] /\
      notices (snd (read_csv_pair g)) = notices g /\
      pending (snd (read_csv_pair g)) = rest /\
      stream_ok (csv_file_stream_ (snd (read_csv_pair g))) /\
      (List.length (csv_buffer_ (snd (read_csv_pair g))) <= 2)%nat
  | [val] =>
      fst (read_csv_pair g) = false /\
      output_queue_ (snd (read_csv_pair g)) = output_queue_ g /\
      notices (snd (read_csv_pair g)) = notices g ++ [InfoOneElementLeft val]
  | [] =>
      fst (read_csv_pair g) = false /\
      output_queue_ (snd (read_csv_pair g)) = output_queue_ g /\
      notices (snd (read_csv_pair g)) = notices g
  end.
Proof.
  intros Hok Hbuf. unfold read_csv_pair.
  destruct Hok as (Hopen & Hrest). rewrite Hopen. cbn [negb].
  destruct (fill_buffer_spec (fill_turns g) g) as (F & Hok1 & P & L & E);
    [now split | assumption | unfold fill_turns; lia |].
  set (g1 := fill_buffer (fill_turns g) g) in *.
  destruct F as (F1 & F2 & F3 & F4 & F5).
  rewrite <- P. unfold pending.
  destruct (csv_buffer_ g1) as [|val1 [|val2 rest]] eqn:B.
  - destruct E as [Heof Hrow]; [cbn; lia|].
    destruct Hok1 as (_ & Hu & _). rewrite (Hu Heof), table_values_empty.
    rewrite skipn_all2 by exact Hrow. cbn [app fst snd].
    repeat split; assumption.
  - destruct E as [Heof Hrow]; [cbn; lia|].
    destruct Hok1 as (_ & Hu & _). rewrite (Hu Heof), table_values_empty.
    rewrite skipn_all2 by exact Hrow. cbn [app].
    rewrite Heof. destruct (Nat.leb_spec (List.length (current_row_values_ g1))
                              (current_row_idx_ g1)); [|lia].
    cbn [andb fst snd]. unfold notices in *.
    cbn [set_buffer say m_ use_csv_mode_ running_ output_queue_ console].
    rewrite filter_app, F5. cbn. repeat split; assumption.
  - assert (rest = []) by (destruct rest; [reflexivity|cbn in L; lia]). subst rest.
    cbn [app fst snd]. unfold notices, BlockingQueue.push in *.
    cbn [set_buffer set_queue m_ use_csv_mode_ running_ output_queue_ console
         csv_file_stream_ csv_buffer_ current_row_idx_ current_row_values_ app
         List.length].
    rewrite F4. repeat split; try assumption; try apply Hok1. lia.
Qed.

Lemma run_loop_stopped (cycles : nat) (g : state) :
  running_ g = false -> run_loop cycles g = Some g.
Proof. intros H. destruct cycles; cbn; now rewrite H. Qed.

Lemma stop_spec (l : console_line) (g : state) :
  is_discard_notice l = false ->
  running_ (stop (say l g)) = false /\
  output_queue_ (stop (say l g)) = output_queue_ g /\
  notices (stop (say l g)) = notices g.
Proof.
  intros H. unfold stop, notices.
  destruct (is_open (csv_file_stream_ (set_running false (say l g))));
    cbn; rewrite filter_app; cbn; rewrite H, app_nil_r; now repeat split.
Qed.

Lemma trailing_notice_cons2 (val1 val2 : uint8) (rest : list uint8) :
  trailing_notice (val1 :: val2 :: rest) = trailing_notice rest.
Proof.
  unfold trailing_notice. cbn [List.length].
  change (Nat.odd (S (S (List.length rest)))) with (Nat.odd (List.length rest)).
  destruct rest as [|x rest]; [reflexivity|].
  destruct (Nat.odd (List.length (x :: rest))); reflexivity.
Qed.

Lemma pairs_of_length (values : list uint8) :
  List.length (pairs_of values) = Nat.div2 (List.length values).
Proof.
  enough (H : List.length (pairs_of values) = Nat.div2 (List.length values) /\
              forall v, List.length (pairs_of (v :: values))
                        = Nat.div2 (List.length (v :: values))) by apply H.
  induction values as [|x values [IH1 IH2]]; [now split|].
  split; [apply IH2|]. intros v. cbn [pairs_of List.length Nat.div2].
  now rewrite IH1.
Qed.

(** The loop of [run] in CSV mode: it ends, having sent the pairs of
    the pending values in order and said so if one value was left. *)
Lemma run_loop_csv (cycles : nat) :
  forall g : state,
    use_csv_mode_ g = true ->
    running_ g = true ->
    stream_ok (csv_file_stream_ g) ->
    (List.length (csv_buffer_ g) <= 2)%nat ->
    (List.length (pending g) < 2 * cycles)%nat ->
    exists g' : state,
      run_loop cycles g = Some g' /\
      output_queue_ g' = output_queue_ g ++ pairs_of (pending g) /\
      notices g' = notices g ++ trailing_notice (pending g).
Proof.
  induction cycles as [|cycles IH]; intros g Hcsv Hrun Hok Hbuf Hlen; [lia|].
  cbn [run_loop]. rewrite Hrun, Hcsv.
  destruct (read_csv_pair_spec g Hok Hbuf) as (M & C & R & H).
  destruct (read_csv_pair g) as [ok g1]. cbn [fst snd] in *.
  destruct (pending g) as [|val1 [|val2 rest]].
  - destruct H as (-> & Q & N).
    destruct (stop_spec EndOfCsvData g1 eq_refl) as (R' & Q' & N').
    eexists. split; [now apply run_loop_stopped|].
    cbn. rewrite !app_nil_r. split; congruence.
  - destruct H as (-> & Q & N).
    destruct (stop_spec EndOfCsvData g1 eq_refl) as (R' & Q' & N').
    eexists. split; [now apply run_loop_stopped|].
    cbn. rewrite app_nil_r. split; congruence.
  - destruct H as (-> & Q & N & P & Hok1 & Hbuf1).
    destruct (IH g1) as (g' & Hg' & Q' & N');
      [congruence | congruence | assumption | assumption
       | rewrite P; cbn in Hlen; lia |].
    exists g'. split; [exact Hg'|].
    rewrite Q', N', Q, N, P, trailing_notice_cons2.
    cbn [pairs_of]. now rewrite <- app_assoc.
Qed.

(** C6.  In CSV mode the generator stops after finitely many cycles,
    having pushed exactly the consecutive pairs of the values of the
    table: half their number, rounded down.  When the number of values
    is odd the last one is reported as discarded and is part of no
    pair, and when it is even nothing is reported.  In particular a
    single row of 7 values with [m = 7] sends 3 pairs and discards the
    value 7 with a notice, whether or not the row ends in a line
    break. *)
Theorem odd_count_trailing_value :
  (forall (m : Z) (content : string) (cycles : nat),
      (List.length (table_values m content) < 2 * cycles)%nat ->
      exists g : state,
        run cycles (csv_generator m content) = Some g /\
        output_queue_ g = pairs_of (table_values m content) /\
        List.length (output_queue_ g)
          = Nat.div2 (List.length (table_values m content)) /\
        notices g = trailing_notice (table_values m content))
  /\ table_values 7 "1,2,3,4,5,6,7" = [1; 2; 3; 4; 5; 6; 7]%Z
  /\ (forall content : string,
         content = "1,2,3,4,5,6,7"%string \/
         content = ("1,2,3,4,5,6,7" ++ String "010"%char "")%string ->
         exists g : state,
           run 4 (csv_generator 7 content) = Some g /\
           output_queue_ g = [(1, 2); (3, 4); (5, 6)]%Z /\
           console g = [InfoOneElementLeft 7%Z; EndOfCsvData; ExitingRunLoop]).
Proof.
  split; [|split].
  - intros m content cycles Hlen.
    destruct (run_loop_csv cycles (csv_generator m content))
      as (g1 & Hrun & Q & N); try reflexivity.
    + unfold stream_ok. cbn. repeat split; discriminate.
    + cbn. lia.
    + exact Hlen.
    + unfold run. change (use_csv_mode_ (csv_generator m content)) with true.
      change (is_open (csv_file_stream_ (csv_generator m content))) with true.
      cbn [negb andb]. rewrite Hrun.
      eexists. split; [reflexivity|].
      change (pending (csv_generator m content)) with (table_values m content) in *.
      change (output_queue_ (csv_generator m content)) with (@nil sample_pair) in Q.
      change (notices (csv_generator m content)) with (@nil console_line) in N.
      cbn [app] in Q, N.
      assert (Q2 : forall l g2,
                 output_queue_ g2 = output_queue_ g1 ->
                 output_queue_ (say l g2) = pairs_of (table_values m content))
        by (intros; cbn; congruence).
      assert (N2 : forall g2,
                 notices g2 = notices g1 ->
                 notices (say ExitingRunLoop g2)
                 = trailing_notice (table_values m content)).
      { intros g2 H. unfold notices in *. cbn. rewrite filter_app, H, N.
        cbn. apply app_nil_r. }
      destruct (is_open (csv_file_stream_ g1));
        (split; [now apply Q2|]; split; [|now apply N2]);
        rewrite Q2 by reflexivity; apply pairs_of_length.
  - reflexivity.
  - intros content [-> | ->]; eexists; (split; [vm_compute; reflexivity|]);
      split; reflexivity.
Qed.

Lemma odd_count_trailing_value_witness :
  (List.length (table_values 7 "1,2,3,4,5,6,7") < 2 * 4)%nat /\
  exists g : state,
    run 4 (csv_generator 7 "1,2,3,4,5,6,7") = Some g /\
    output_queue_ g = pairs_of (table_values 7 "1,2,3,4,5,6,7") /\
    List.length (output_queue_ g) = 3%nat /\
    notices g = [InfoOneElementLeft 7%Z].
Proof.
  split; [vm_compute; lia|].
  apply (proj1 odd_count_trailing_value 7%Z "1,2,3,4,5,6,7"%string 4%nat).
  vm_compute; lia.
Defined.

End GeneratorFacts.

(** ** The termination handshake *)

Section HandshakeFacts.
Import Main.

(** The code after the main loop leaves no full window behind,
    whatever buffer it starts from. *)
Lemma finish_leaves_no_window (tv : float) (st : FilterThreshold.state) :
  (List.length (FilterThreshold.data_buffer_ (FilterThreshold.finish tv st)) < 9)%nat.
Proof.
  unfold FilterThreshold.finish.
  set (st1 := FilterThreshold.drain tv
                (FilterThreshold.print FilterThreshold.ProcessingRemaining st)).
  assert (H : (List.length (FilterThreshold.data_buffer_ st1) < 9)%nat).
  { unfold st1.
    destruct (drain_spec tv
                (FilterThreshold.print FilterThreshold.ProcessingRemaining st))
      as [Hb _].
    rewrite Hb, length_skipn. lia. }
  cbn [FilterThreshold.print FilterThreshold.data_buffer_].
  destruct (FilterThreshold.data_buffer_ st1) eqn:E;
    cbn [FilterThreshold.print FilterThreshold.data_buffer_];
    rewrite ?E; exact H.
Qed.

Lemma handshake_initial (to_push : list sample_pair) : handshake (initial to_push).
Proof. unfold handshake, initial; cbn. repeat split; intros; discriminate. Qed.

Lemma handshake_step (tv : float) (who : thread) (s s' : system) :
  handshake s -> step tv who s = Some s' -> handshake s'.
Proof.
  destruct s as [p q flag c k ft]. unfold handshake, step.
  cbn [producer data_queue producer_is_finished coordinator consumer filter_thresh].
  intros H E.
  destruct who.
  - (* the producer pushes or returns *)
    destruct p as [[|x rest]|]; [| |discriminate];
      injection E as <-; cbn in *; intuition congruence.
  - (* the consumer *)
    destruct k; cbn in E.
    + destruct q as [|[first second] q]; injection E as <-; cbn in *;
        intuition congruence.
    + destruct flag; injection E as <-; cbn in *; intuition congruence.
    + destruct q as [|x q]; injection E as <-; cbn in *; intuition congruence.
    + injection E as <-; cbn in *; intuition congruence.
    + injection E as <-; cbn in *.
      pose proof (finish_leaves_no_window tv ft). intuition congruence.
    + discriminate.
  - (* the coordinator *)
    destruct c; cbn in E.
    + destruct p; [discriminate|]. injection E as <-; cbn in *.
      intuition congruence.
    + injection E as <-; cbn in *. intuition congruence.
    + destruct k; try discriminate. injection E as <-; cbn in *.
      intuition congruence.
    + discriminate.
Qed.

Lemma handshake_exec (tv : float) (schedule : list thread) :
  forall s : system, handshake s -> handshake (exec tv schedule s).
Proof.
  induction schedule as [|who schedule IH]; intros s H; [exact H|].
  cbn [exec]. destruct (step tv who s) as [s'|] eqn:E.
  - apply IH. now apply handshake_step with tv who s.
  - now apply IH.
Qed.

(** C4.  In every state that the producer, the consumer and the
    coordinator can reach by interleaving their steps:
    the finished signal is set only once the producer thread has
    returned; a consumer that is past its loop has seen the signal set
    and left the queue empty, with the producer gone, so that no pair
    is or will be waiting; and a consumer that has returned has no
    full window left in its buffer.  The only step that sets the
    signal is the coordinator's, taken after the producer returned,
    and the only step that takes the consumer out of its loop is its
    check [input_queue_.empty()], reached after a failed poll and a
    read of the signal as true, and finding the queue empty.  The step
    the consumer takes after its loop, on whatever buffer it finds,
    prints one decision for every full window that is left, in order
    (positions [0 .. length - 9], each with the element at offset 4 as
    its subject), removes one element for each, so that the last eight
    remain, leaves the queue alone, and then the consumer returns. *)
Theorem termination_handshake :
  forall (tv : float) (to_push : list sample_pair) (schedule : list thread),
    let s := exec tv schedule (initial to_push) in
    (producer_is_finished s = true -> producer s = ProducerExited) /\
    (past_loop (consumer s) = true ->
     producer_is_finished s = true /\
     data_queue s = [] /\
     producer s = ProducerExited) /\
    (consumer s = ConsumerExited ->
     (List.length (FilterThreshold.data_buffer_ (filter_thresh s)) < 9)%nat) /\
    (forall (who : thread) (s' : system),
        step tv who s = Some s' ->
        (producer_is_finished s = false -> producer_is_finished s' = true ->
         who = Coordinator /\ producer s = ProducerExited) /\
        (past_loop (consumer s) = false -> past_loop (consumer s') = true ->
         who = Consumer /\ consumer s = CheckQueueEmpty /\
         producer_is_finished s = true /\ data_queue s = [] /\
         producer s = ProducerExited) /\
        (consumer s' = CheckQueueEmpty -> consumer s <> CheckQueueEmpty ->
         consumer s = ReadFinishedFlag /\ producer_is_finished s = true) /\
        (consumer s' = ReadFinishedFlag -> consumer s <> ReadFinishedFlag ->
         consumer s = TryPop /\ data_queue s = [])) /\
    (forall after : system,
        consumer after = AfterLoop ->
        exists s' : system,
          step tv Consumer after = Some s' /\
          consumer s' = ConsumerExited /\
          data_queue s' = data_queue after /\
          FilterThreshold.decisions (filter_thresh s')
            = FilterThreshold.decisions (filter_thresh after) ++
              map (FilterThreshold.window_decision tv
                     (FilterThreshold.data_buffer_ (filter_thresh after)))
                  (seq 0 (List.length
                            (FilterThreshold.data_buffer_ (filter_thresh after)) - 8)) /\
          FilterThreshold.data_buffer_ (filter_thresh s')
            = skipn (List.length
                       (FilterThreshold.data_buffer_ (filter_thresh after)) - 8)
                    (FilterThreshold.data_buffer_ (filter_thresh after))).
Proof.
  intros tv to_push schedule s.
  pose proof (handshake_exec tv schedule _ (handshake_initial to_push)) as H.
  fold s in H. clearbody s.
  destruct s as [p q flag c k ft]. unfold handshake in H.
  cbn [producer data_queue producer_is_finished coordinator consumer filter_thresh]
    in *.
  destruct H as (H1 & H2 & H3 & H4 & H5 & H6).
  assert (Hp : flag = true -> p = ProducerExited).
  { intros Hf. specialize (H1 (H2 Hf)). now destruct p. }
  split; [exact Hp|]. split; [|split; [exact H5|split]].
  - intros Hk. destruct (H4 Hk) as [Hf Hq]. auto.
  - intros who s' E. unfold step in E.
    cbn [producer data_queue producer_is_finished coordinator consumer
         filter_thresh] in E.
    destruct who.
    + destruct p as [[|x rest]|]; [| |discriminate];
        injection E as <-; cbn; repeat split; intros; congruence.
    + destruct k; cbn in E.
      * destruct q as [|[first second] q]; injection E as <-; cbn;
          repeat split; intros; congruence.
      * destruct flag; injection E as <-; cbn;
          repeat split; intros; congruence.
      * destruct q as [|x q]; injection E as <-; cbn;
          repeat split; intros; auto; congruence.
      * injection E as <-; cbn; repeat split; intros; congruence.
      * injection E as <-; cbn; repeat split; intros; congruence.
      * discriminate.
    + destruct c; cbn in E.
      * destruct p; [discriminate|]. injection E as <-; cbn.
        repeat split; intros; congruence.
      * injection E as <-; cbn. specialize (H1 eq_refl).
        destruct p; [discriminate|]. repeat split; intros; congruence.
      * destruct k; try discriminate. injection E as <-; cbn.
        repeat split; intros; congruence.
      * discriminate.
  - intros [p0 q0 flag0 c0 k0 ft0] Hk. cbn in Hk. subst k0.
    destruct (finish_drains tv ft0) as [Fb Fd].
    eexists. split; [reflexivity|]. cbn. repeat split; assumption.
Qed.

Lemma termination_handshake_witness :
  (past_loop
     (consumer
        (exec 1275%float
           ([Producer; Producer; Coordinator; Coordinator] ++ repeat Consumer 7)
           (initial [(1, 2)%Z]))) = true /\
   data_queue
     (exec 1275%float
        ([Producer; Producer; Coordinator; Coordinator] ++ repeat Consumer 7)
        (initial [(1, 2)%Z])) = [] /\
   producer
     (exec 1275%float
        ([Producer; Producer; Coordinator; Coordinator] ++ repeat Consumer 7)
        (initial [(1, 2)%Z])) = ProducerExited) /\
  (consumer
     (mkSystem ProducerExited [] true JoinConsumer AfterLoop
        {| FilterThreshold.data_buffer_ := [10; 20; 30; 40; 50; 60; 70; 80; 90; 100]%Z;
           FilterThreshold.cout := [] |}) = AfterLoop /\
   exists s' : system,
     step 1275%float Consumer
          (mkSystem ProducerExited [] true JoinConsumer AfterLoop
             {| FilterThreshold.data_buffer_ :=
                  [10; 20; 30; 40; 50; 60; 70; 80; 90; 100]%Z;
                FilterThreshold.cout := [] |}) = Some s' /\
     consumer s' = ConsumerExited /\
     List.length (FilterThreshold.decisions (filter_thresh s')) = 2%nat /\
     FilterThreshold.data_buffer_ (filter_thresh s')
       = [30; 40; 50; 60; 70; 80; 90; 100]%Z).
Proof.
  split.
  - split; [reflexivity|].
    apply (proj1 (proj2 (termination_handshake 1275%float [(1, 2)%Z]
             ([Producer; Producer; Coordinator; Coordinator] ++ repeat Consumer 7)))).
    reflexivity.
  - split; [reflexivity|].
    destruct (proj2 (proj2 (proj2 (proj2 (termination_handshake 1275%float [] []))))
                (mkSystem ProducerExited [] true JoinConsumer AfterLoop
                   {| FilterThreshold.data_buffer_ :=
                        [10; 20; 30; 40; 50; 60; 70; 80; 90; 100]%Z;
                      FilterThreshold.cout := [] |}) eq_refl)
      as (s' & E & K & _ & D & B).
    exists s'. split; [exact E|]. split; [exact K|]. split.
    + rewrite D. reflexivity.
    + rewrite B. reflexivity.
Defined.

Lemma exec_app (tv : float) (xs ys : list thread) :
  forall s : system, exec tv (xs ++ ys) s = exec tv ys (exec tv xs s).
Proof.
  induction xs as [|who xs IH]; intros s; [reflexivity|].
  cbn [app exec]. destruct (step tv who s); apply IH.
Qed.

Lemma exec_cons (tv : float) (who : thread) (schedule : list thread) (s s' : system) :
  step tv who s = Some s' -> exec tv (who :: schedule) s = exec tv schedule s'.
Proof. intros H. cbn [exec]. now rewrite H. Qed.

(** Left alone, the producer pushes what it has and returns; the other
    two threads stay where they are. *)
Lemma exec_producer (tv : float) (to_push : list sample_pair) :
  forall s : system,
    producer s = ProducerRunning to_push ->
    producer (exec tv (repeat Producer (S (List.length to_push))) s) = ProducerExited /\
    coordinator (exec tv (repeat Producer (S (List.length to_push))) s) = coordinator s /\
    consumer (exec tv (repeat Producer (S (List.length to_push))) s) = consumer s.
Proof.
  induction to_push as [|p rest IH]; intros s H.
  - cbn. rewrite H. cbn. now repeat split.
  - change (repeat Producer (S (List.length (p :: rest))))
      with (Producer :: repeat Producer (S (List.length rest))).
    rewrite (exec_cons tv Producer _ s
               (set_producer (ProducerRunning rest)
                             (BlockingQueue.push p (data_queue s)) s))
      by (cbn; now rewrite H).
    apply (IH (set_producer (ProducerRunning rest)
                            (BlockingQueue.push p (data_queue s)) s) eq_refl).
Qed.

(** C5 fails on the code.  The flag is a plain [bool], and whatever the
    producer has to push there is a schedule after which the
    coordinator is about to write the flag while the consumer is about
    to read it: the consumer polls the empty queue first, the producer
    then runs to its end, and the coordinator returns from the join. *)
Theorem finished_flag_is_racy :
  producer_is_finished_type = PlainBool /\
  forall (tv : float) (to_push : list sample_pair),
    flag_race
      (exec tv (Consumer :: repeat Producer (S (List.length to_push)) ++ [Coordinator])
            (initial to_push)) = true.
Proof.
  split; [reflexivity|]. intros tv to_push.
  change (Consumer :: repeat Producer (S (List.length to_push)) ++ [Coordinator])
    with ([Consumer] ++ repeat Producer (S (List.length to_push)) ++ [Coordinator]).
  rewrite !exec_app.
  set (s1 := exec tv [Consumer] (initial to_push)).
  destruct (exec_producer tv to_push s1 eq_refl) as (A & B & C).
  set (s2 := exec tv (repeat Producer (S (List.length to_push))) s1) in *.
  assert (B1 : coordinator s1 = JoinProducer) by reflexivity.
  assert (C1 : consumer s1 = ReadFinishedFlag) by reflexivity.
  rewrite B1 in B. rewrite C1 in C.
  rewrite (exec_cons tv Coordinator [] s2
             (set_coordinator (producer_is_finished s2) PublishFinished s2))
    by (unfold step; now rewrite B, A).
  unfold flag_race, flag_access.
  cbn [exec set_coordinator coordinator consumer]. now rewrite C.
Qed.

End HandshakeFacts.

(* ================================================================= *)
(** * Further properties of the code *)

(** ** The queue under arbitrary use *)

Section QueueConservation.
Context {T : Type}.
Import BlockingQueue.

(** X1.  Whatever a single client does with the queue, in whatever
    order: what was in the queue plus what the executed calls pushed is
    exactly what was handed out followed by what is still queued.  So
    items come out in the order they went in, none twice and none
    made up; and the script is cut short only by a [pop] on an empty
    queue. *)
Theorem queue_conservation :
  forall (script : list (call T)) (item : T) (q : t T),
    let rs := fst (exec script item q) in
    let q' := snd (exec script item q) in
    q ++ pushed_items (firstn (List.length rs) script) = delivered rs ++ q' /\
    (List.length rs = List.length script \/
     (exists rs0, rs = rs0 ++ [PopBlocks]) /\ q' = []).
Proof.
  induction script as [|c script IH]; intros item q; cbn zeta.
  - cbn. rewrite app_nil_r. auto.
  - destruct c as [x| |]; cbn [exec].
    + specialize (IH item (push x q)). cbn zeta in IH.
      destruct (exec script item (push x q)) as [rs q'] eqn:E.
      cbn [fst snd List.length firstn pushed_items delivered] in *.
      destruct IH as [IH1 IH2]. unfold push in IH1. rewrite <- app_assoc in IH1.
      split; [exact IH1|].
      destruct IH2 as [IH2|[[rs0 ->] ->]]; [left; lia|].
      right. split; [now exists (Pushed :: rs0)|reflexivity].
    + destruct q as [|y q]; cbn [pop].
      * cbn. split; [reflexivity|]. right. split; [now exists []|reflexivity].
      * specialize (IH item q). cbn zeta in IH.
        destruct (exec script item q) as [rs q'] eqn:E.
        cbn [fst snd List.length firstn pushed_items delivered] in *.
        destruct IH as [IH1 IH2]. split; [cbn; now rewrite IH1|].
        destruct IH2 as [IH2|[[rs0 ->] ->]]; [left; lia|].
        right. split; [now exists (Popped y :: rs0)|reflexivity].
    + destruct q as [|y q]; cbn [try_pop].
      * specialize (IH item []). cbn zeta in IH.
        destruct (exec script item []) as [rs q'] eqn:E.
        cbn [fst snd List.length firstn pushed_items delivered] in *.
        destruct IH as [IH1 IH2]. split; [exact IH1|].
        destruct IH2 as [IH2|[[rs0 ->] ->]]; [left; lia|].
        right. split; [now exists (TryPopped false item :: rs0)|reflexivity].
      * specialize (IH y q). cbn zeta in IH.
        destruct (exec script y q) as [rs q'] eqn:E.
        cbn [fst snd List.length firstn pushed_items delivered] in *.
        destruct IH as [IH1 IH2]. split; [cbn; now rewrite IH1|].
        destruct IH2 as [IH2|[[rs0 ->] ->]]; [left; lia|].
        right. split; [now exists (TryPopped true y :: rs0)|reflexivity].
Qed.

End QueueConservation.

(** ** The filter beyond the claims *)

Section FilterBeyond.
Import FilterThreshold.

(** X2.  The loop [while (data_buffer_.size() >= WINDOW_SIZE)
    process_element();] on any buffer: it ends with the last eight
    elements left (or the whole buffer, if shorter), and it appends one
    decision for each window position [0 .. length - 9], in that
    order, each with the element four places into the window as its
    subject. *)
Theorem drain_any_buffer :
  forall (tv : float) (st : state),
    data_buffer_ (drain tv st)
      = skipn (List.length (data_buffer_ st) - 8) (data_buffer_ st) /\
    decisions (drain tv st)
      = decisions st ++
        map (window_decision tv (data_buffer_ st))
            (seq 0 (List.length (data_buffer_ st) - 8)).
Proof.
  intros tv st. split.
  - apply drain_spec.
  - apply drain_loop_decisions. lia.
Qed.

(** X3.  Decisions are final: feeding more samples never changes or
    removes a decision already printed, it only appends the decisions
    for the windows that the new samples complete. *)
Theorem decisions_are_never_revised :
  forall (tv : float) (earlier later : list uint8),
    exists appended : list decision,
      decisions (ingest_all tv (earlier ++ later) init)
        = decisions (ingest_all tv earlier init) ++ appended /\
      List.length appended
        = ((List.length earlier + List.length later - 8)
           - (List.length earlier - 8))%nat.
Proof.
  intros tv earlier later.
  destruct (ingest_all_init tv (earlier ++ later)) as [_ H2].
  destruct (ingest_all_init tv earlier) as [_ H1].
  rewrite H2, H1, length_app.
  set (a := (List.length earlier - 8)%nat).
  set (b := ((List.length earlier + List.length later - 8) - a)%nat).
  replace (List.length earlier + List.length later - 8)%nat with (a + b)%nat
    by (unfold a, b; lia).
  rewrite seq_app, map_app.
  exists (map (fun j => offline_decision tv (earlier ++ later) (j + 4)) (seq (0 + a) b)).
  split; [|now rewrite length_map, length_seq].
  f_equal. apply map_ext_in. intros j Hj. apply in_seq in Hj.
  apply offline_decision_app. unfold a in Hj. lia.
Qed.

(** X4.  Between two cycles of [run] the buffer never holds more than
    eight samples, so the loop after the main loop finds no full
    window: every decision of a run is printed inside the main loop,
    and the code after it only reports.  What it reports is the number
    of samples left and, unless there is none, the samples themselves. *)
Theorem run_reports_what_is_left :
  forall (tv : float) (cycles : list cycle) (st1 : state),
    run_loop tv cycles init = Some st1 ->
    (List.length (data_buffer_ st1) <= 8)%nat /\
    drain tv (print ProcessingRemaining st1) = print ProcessingRemaining st1 /\
    run tv cycles
      = Some {| data_buffer_ := data_buffer_ st1;
                cout := cout st1 ++ final_report (data_buffer_ st1) |}.
Proof.
  intros tv cycles st1 H.
  destruct (run_loop_ingest_all tv cycles init st1 H) as [Hb _].
  pose proof (ingest_all_init_length tv (ingested cycles)) as Hlen.
  rewrite <- Hb in Hlen. unfold WINDOW_SIZE in Hlen.
  assert (Hd : drain tv (print ProcessingRemaining st1) = print ProcessingRemaining st1)
    by (apply drain_short; exact Hlen).
  split; [lia|]. split; [exact Hd|].
  unfold run. rewrite H. unfold finish. rewrite Hd.
  unfold final_report, print. cbn [data_buffer_ cout].
  destruct (data_buffer_ st1) eqn:E; cbn [data_buffer_ cout];
    rewrite ?E, <- ?app_assoc; reflexivity.
Qed.

Lemma run_reports_what_is_left_witness :
  exists st1 : state,
    run_loop 1275%float ten_sample_run init = Some st1 /\
    (List.length (data_buffer_ st1) <= 8)%nat /\
    run 1275%float ten_sample_run
      = Some {| data_buffer_ := data_buffer_ st1;
                cout := cout st1 ++ final_report (data_buffer_ st1) |}.
Proof.
  destruct (run_loop 1275%float ten_sample_run init) as [st1|] eqn:E;
    [|vm_compute in E; discriminate E].
  exists st1. split; [reflexivity|].
  destruct (run_reports_what_is_left 1275%float ten_sample_run st1 E) as (A & _ & C).
  split; assumption.
Defined.

End FilterBeyond.

(** ** The generator beyond the claims *)

Section GeneratorBeyond.
Import DataGenerator.

(** X5.  The cells that the loop [while (std::getline(ss, cell, ','))]
    visits on a line, and the lines that successive
    [std::getline(csv_file_stream_, line)] calls read from a file, are
    the pieces between the delimiters: a delimiter at the very end
    does not start one more (empty) piece, two delimiters in a row
    enclose an empty piece, and the empty input has no piece at all.
    The loop ends after at most one turn per character, plus one. *)
Theorem getline_loop_pieces :
  forall (delim : ascii) (text : string) (more : nat),
    getline_loop (S (String.length text) + more) delim (stringstream text)
    = pieces delim text.
Proof.
  intros delim text more.
  assert (H : forall turns ins,
             stream_ok ins ->
             (String.length (unread ins) < turns)%nat ->
             getline_loop turns delim ins = pieces delim (unread ins)).
  { induction turns as [|turns IH]; intros ins Hok Hlen; [lia|].
    cbn [getline_loop]. pose proof (getline_spec delim ins Hok) as G.
    destruct (getline delim ins) as [[piece|] ins'].
    - destruct G as (Hok' & Hp & Hl). rewrite Hp. f_equal. apply IH; [exact Hok'|lia].
    - destruct G as (_ & _ & Hu & _). now rewrite Hu. }
  apply H; [|cbn; lia].
  unfold stream_ok, stringstream; cbn. repeat split; discriminate.
Qed.

Lemma to_uint8_byte (v : Z) : byte (to_uint8 v).
Proof. unfold byte, to_uint8. apply Z.mod_pos_bound. lia. Qed.

Lemma read_cell_only_bytes (cell : string) (count : Z) (g : state) :
  only_bytes g -> only_bytes (read_cell cell count g).
Proof.
  unfold only_bytes, read_cell. intros (B & R & Q).
  destruct ((count <? m_ g)%Z || (m_ g <=? 0)%Z); [destruct (stoi cell)|];
    cbn; repeat split; try assumption.
  apply Forall_app. split; [assumption|].
  constructor; [apply to_uint8_byte|constructor].
Qed.

Lemma read_cells_only_bytes (cells : list string) :
  forall (count : Z) (g : state),
    only_bytes g -> only_bytes (snd (read_cells cells count g)).
Proof.
  induction cells as [|cell cells IH]; intros count g H; cbn [read_cells];
    [exact H|].
  apply IH. now apply read_cell_only_bytes.
Qed.

Lemma read_row_cells_only_bytes (cells : list string) (g : state) :
  only_bytes g -> only_bytes (read_row_cells cells g).
Proof.
  intros (B & R & Q). unfold read_row_cells.
  set (g2 := set_row [] 0 (set_line_number (line_number_ g + 1) g)).
  assert (H2 : only_bytes g2) by (unfold only_bytes; cbn; auto).
  pose proof (read_cells_only_bytes cells 0%Z g2 H2) as H3.
  destruct (read_cells cells 0%Z g2) as [count g3]. cbn [snd] in H3.
  destruct ((0 <? m_ g3)%Z && (count <? m_ g3)%Z); [|exact H3].
  unfold only_bytes in *. cbn. exact H3.
Qed.

Lemma nth_byte (row : list uint8) (idx : nat) :
  Forall byte row -> byte (nth idx row 0%Z).
Proof.
  intros H. destruct (nth_in_or_default idx row 0%Z) as [Hin| ->].
  - rewrite Forall_forall in H. now apply H.
  - unfold byte; lia.
Qed.

Lemma take_from_row_only_bytes (g : state) :
  only_bytes g -> only_bytes (take_from_row g).
Proof.
  intros (B & R & Q). unfold only_bytes, take_from_row. cbn.
  repeat split; try assumption.
  apply Forall_app. split; [assumption|].
  constructor; [now apply nth_byte|constructor].
Qed.

Lemma fill_buffer_only_bytes (turns : nat) :
  forall g : state, only_bytes g -> only_bytes (fill_buffer turns g).
Proof.
  induction turns as [|turns IH]; intros g H; cbn [fill_buffer]; [exact H|].
  destruct (List.length (csv_buffer_ g) <? 2)%nat; [|exact H].
  destruct (current_row_idx_ g <? List.length (current_row_values_ g))%nat.
  - apply IH. now apply take_from_row_only_bytes.
  - destruct (getline "010"%char (csv_file_stream_ g)) as [[line|] ins'].
    + assert (H1 : only_bytes (read_row line (set_stream ins' g))).
      { apply read_row_cells_only_bytes. exact H. }
      destruct (current_row_idx_ _ <? List.length (current_row_values_ _))%nat.
      * apply IH. now apply take_from_row_only_bytes.
      * destruct (eofbit _ && is_nil _); [exact H1|now apply IH].
    + exact H.
Qed.

Lemma open_csv_only_bytes (g : state) :
  only_bytes g -> only_bytes (snd (open_csv g)).
Proof.
  intros H. unfold open_csv.
  destruct (negb (is_empty_string (csv_filepath_ g))); [|exact H].
  destruct (file_on_disk g); exact H.
Qed.

Lemma read_csv_pair_only_bytes (g : state) :
  only_bytes g -> only_bytes (snd (read_csv_pair g)).
Proof.
  intros H. unfold read_csv_pair.
  assert (H0 : only_bytes
                 (snd (if is_open (csv_file_stream_ g) then (true, g) else open_csv g))).
  { destruct (is_open (csv_file_stream_ g)); [exact H|now apply open_csv_only_bytes]. }
  destruct (if is_open (csv_file_stream_ g) then (true, g) else open_csv g)
    as [ready g0]. cbn [snd] in H0.
  destruct ready; cbn [negb]; [|exact H0].
  pose proof (fill_buffer_only_bytes (fill_turns g0) g0 H0) as (B & R & Q).
  destruct (csv_buffer_ (fill_buffer (fill_turns g0) g0)) as [|val1 [|val2 rest]] eqn:E.
  - cbn [snd]. unfold only_bytes. rewrite E. auto.
  - destruct (eofbit _ && (_ <=? _)%nat); cbn [snd]; unfold only_bytes.
    + cbn. auto.
    + rewrite E. auto.
  - cbn [snd]. unfold only_bytes, BlockingQueue.push. cbn.
    inversion B as [|? ? B1 B2]; subst. inversion B2 as [|? ? B3 B4]; subst.
    repeat split; try assumption.
    apply Forall_app. split; [assumption|].
    constructor; [now split|constructor].
Qed.

Lemma generate_random_pair_only_bytes (g : state) :
  only_bytes g -> only_bytes (generate_random_pair g).
Proof.
  intros (B & R & Q). unfold only_bytes, generate_random_pair, BlockingQueue.push.
  cbn. repeat split; try assumption.
  apply Forall_app. split; [assumption|].
  constructor; [split; apply to_uint8_byte|constructor].
Qed.

Lemma stop_only_bytes (g : state) : only_bytes g -> only_bytes (stop g).
Proof.
  intros H. unfold stop.
  destruct (is_open (csv_file_stream_ (set_running false g))); exact H.
Qed.

Lemma run_loop_only_bytes (cycles : nat) :
  forall g g' : state,
    only_bytes g -> run_loop cycles g = Some g' -> only_bytes g'.
Proof.
  induction cycles as [|cycles IH]; intros g g' H E; cbn [run_loop] in E;
    destruct (running_ g); try discriminate;
    try (injection E as <-; exact H).
  destruct (use_csv_mode_ g).
  - pose proof (read_csv_pair_only_bytes g H) as H1.
    destruct (read_csv_pair g) as [ok g1]. cbn [snd] in H1.
    destruct ok; [now apply (IH g1)|].
    apply (IH (stop (say EndOfCsvData g1))); [|exact E].
    apply stop_only_bytes. exact H1.
  - apply (IH (generate_random_pair g)); [|exact E].
    now apply generate_random_pair_only_bytes.
Qed.

(** X6.  The generator never sends anything but bytes: if its queue,
    pair buffer and current row hold values in [0, 255], so they do
    after a call of [read_csv_pair], after a call of
    [generate_random_pair], and when [run] returns; in particular for
    a newly made generator with an empty queue, whatever the file says. *)
Theorem generator_sends_only_bytes :
  (forall g : state, only_bytes g -> only_bytes (snd (read_csv_pair g)))
  /\ (forall g : state, only_bytes g -> only_bytes (generate_random_pair g))
  /\ (forall (cycles : nat) (g g' : state),
         only_bytes g -> run cycles g = Some g' -> only_bytes g')
  /\ (forall (m : Z) (csv_filepath : string) (disk : option string)
             (engine : nat -> Z) (cycles : nat) (g' : state),
         run cycles (make BlockingQueue.new m csv_filepath disk engine) = Some g' ->
         Forall byte_pair (output_queue_ g')).
Proof.
  assert (R : forall cycles g g',
             only_bytes g -> run cycles g = Some g' -> only_bytes g').
  { intros cycles g g' H E. unfold run in E.
    set (g0 := if use_csv_mode_ g && negb (is_open (csv_file_stream_ g))
               then set_running false (say ErrCsvModeNotOpen g) else g) in E.
    assert (H0 : only_bytes g0)
      by (unfold g0; destruct (use_csv_mode_ g && _); exact H).
    destruct (run_loop cycles g0) as [g1|] eqn:E1; [|discriminate].
    pose proof (run_loop_only_bytes cycles g0 g1 H0 E1) as H1.
    injection E as <-. destruct (is_open (csv_file_stream_ g1)); exact H1. }
  split; [exact read_csv_pair_only_bytes|].
  split; [exact generate_random_pair_only_bytes|].
  split; [exact R|].
  intros m path disk engine cycles g' E.
  apply (R cycles (make BlockingQueue.new m path disk engine) g'); [|exact E].
  unfold make. cbn [use_csv_mode_].
  destruct (negb (is_empty_string path)).
  - set (g := mkState _ _ _ _ _ _ _ _ _ _ _ _ _ _).
    assert (H : only_bytes g) by (unfold only_bytes; cbn; auto).
    pose proof (open_csv_only_bytes g H) as H1.
    destruct (open_csv g) as [opened g1]. cbn [snd] in H1.
    destruct opened; exact H1.
  - unfold only_bytes; cbn; auto.
Qed.

Lemma generator_sends_only_bytes_witness :
  exists g' : state,
    run 3 (csv_generator 0 "300,-1,7,256") = Some g' /\
    output_queue_ g' = [(44, 255); (7, 0)]%Z /\
    Forall byte_pair (output_queue_ g').
Proof.
  destruct (run 3 (csv_generator 0 "300,-1,7,256")) as [g'|] eqn:E;
    [|vm_compute in E; discriminate E].
  exists g'. split; [reflexivity|]. split.
  - vm_compute in E. injection E as <-. reflexivity.
  - exact (proj2 (proj2 (proj2 generator_sends_only_bytes))
             0%Z "input.csv"%string (Some "300,-1,7,256"%string)
             (fun _ => 0%Z) 3%nat g' E).
Defined.

(** X7.  A CSV file that cannot be opened ends the producer at once:
    the constructor and [run] each report it, nothing is read or
    pushed, and [run] returns without a single cycle, whatever the
    other settings are. *)
Theorem unavailable_file_is_immediate_exhaustion :
  forall (q : BlockingQueue.t sample_pair) (m : Z) (c : ascii) (path : string)
         (engine : nat -> Z) (cycles : nat),
    exists g : state,
      run cycles (make q m (String c path) None engine) = Some g /\
      output_queue_ g = q /\
      running_ g = false /\
      console g = [ErrCouldNotOpenCsv (String c path); ErrCsvModeNotOpen;
                   ExitingRunLoop].
Proof.
  intros q m c path engine cycles. eexists. split.
  - unfold run, make, open_csv. cbn.
    destruct cycles; cbn; reflexivity.
  - cbn. repeat split; reflexivity.
Qed.

Lemma run_loop_returns_stopped (cycles : nat) :
  forall g g' : state, run_loop cycles g = Some g' -> running_ g' = false.
Proof.
  induction cycles as [|cycles IH]; intros g g' E; cbn [run_loop] in E;
    destruct (running_ g) eqn:R; try discriminate;
    try (injection E as <-; exact R).
  destruct (use_csv_mode_ g).
  - destruct (read_csv_pair g) as [[|] g1]; eapply IH; exact E.
  - eapply IH; exact E.
Qed.

(** X8.  Whenever [run] returns, in either mode and from any state, the
    generator is stopped, its file stream is closed, and the last
    thing it printed is that it leaves the run loop. *)
Theorem run_returns_stopped_and_closed :
  forall (cycles : nat) (g g' : state),
    run cycles g = Some g' ->
    running_ g' = false /\
    is_open (csv_file_stream_ g') = false /\
    exists earlier, console g' = earlier ++ [ExitingRunLoop].
Proof.
  intros cycles g g' E. unfold run in E.
  destruct (run_loop cycles _) as [g1|] eqn:E1; [|discriminate].
  apply run_loop_returns_stopped in E1. injection E as <-.
  destruct (is_open (csv_file_stream_ g1)) eqn:O; cbn.
  - repeat split; [exact E1|]. now exists (console g1).
  - repeat split; [exact E1|exact O|]. now exists (console g1).
Qed.

Lemma run_returns_stopped_and_closed_witness :
  exists g' : state,
    run 4 (csv_generator 7 "1,2,3,4,5,6,7") = Some g' /\
    running_ g' = false /\
    is_open (csv_file_stream_ g') = false.
Proof.
  destruct (run 4 (csv_generator 7 "1,2,3,4,5,6,7")) as [g'|] eqn:E;
    [|vm_compute in E; discriminate E].
  exists g'. split; [reflexivity|].
  destruct (run_returns_stopped_and_closed 4 _ g' E) as (A & B & _).
  now split.
Defined.

Lemma fill_buffer_queue (turns : nat) :
  forall g : state, output_queue_ (fill_buffer turns g) = output_queue_ g.
Proof.
  induction turns as [|turns IH]; intros g; cbn [fill_buffer]; [reflexivity|].
  destruct (List.length (csv_buffer_ g) <? 2)%nat; [|reflexivity].
  destruct (current_row_idx_ g <? List.length (current_row_values_ g))%nat.
  - now rewrite IH.
  - destruct (getline "010"%char (csv_file_stream_ g)) as [[line|] ins'];
      [|reflexivity].
    assert (Q : output_queue_ (read_row line (set_stream ins' g)) = output_queue_ g).
    { unfold read_row.
      destruct (read_row_cells_spec (pieces ","%char line) (set_stream ins' g))
        as ((_ & _ & _ & Q & _) & _). exact Q. }
    destruct (current_row_idx_ _ <? List.length (current_row_values_ _))%nat.
    + now rewrite IH.
    + destruct (eofbit _ && is_nil _); [exact Q|now rewrite IH].
Qed.

(** X9.  The return value of [read_csv_pair] tells exactly what
    happened to the queue, in any state: [true] means one pair was
    appended, [false] means the queue was left as it was. *)
Theorem read_csv_pair_sends_one_pair_or_none :
  forall g : state,
    if fst (read_csv_pair g)
    then exists p : sample_pair,
        output_queue_ (snd (read_csv_pair g)) = output_queue_ g ++ [p]
    else output_queue_ (snd (read_csv_pair g)) = output_queue_ g.
Proof.
  intros g. unfold read_csv_pair.
  assert (Q0 : output_queue_
                 (snd (if is_open (csv_file_stream_ g) then (true, g) else open_csv g))
               = output_queue_ g).
  { destruct (is_open (csv_file_stream_ g)); [reflexivity|].
    unfold open_csv. destruct (negb _); [|reflexivity].
    destruct (file_on_disk g); reflexivity. }
  destruct (if is_open (csv_file_stream_ g) then (true, g) else open_csv g)
    as [ready g0]. cbn [snd] in Q0.
  destruct ready; cbn [negb fst snd]; [|exact Q0].
  pose proof (fill_buffer_queue (fill_turns g0) g0) as Q1.
  destruct (csv_buffer_ (fill_buffer (fill_turns g0) g0)) as [|val1 [|val2 rest]].
  - cbn [fst snd]. congruence.
  - destruct (eofbit _ && (_ <=? _)%nat);
      cbn [fst snd output_queue_ set_buffer say]; congruence.
  - cbn [fst snd]. exists (val1, val2). unfold BlockingQueue.push.
    cbn [output_queue_ set_queue set_buffer]. now rewrite Q1, Q0.
Qed.

Lemma generate_random_pair_keeps_running (g : state) :
  use_csv_mode_ (generate_random_pair g) = use_csv_mode_ g /\
  running_ (generate_random_pair g) = running_ g.
Proof. split; reflexivity. Qed.

(** X10.  In random mode [run] does not return on its own: as long as
    nobody calls [stop], it is still in its loop after any number of
    cycles. *)
Theorem random_mode_runs_on :
  forall (cycles : nat) (g : state),
    use_csv_mode_ g = false -> running_ g = true -> run cycles g = None.
Proof.
  intros cycles g Hm Hr. unfold run. rewrite Hm. cbn [andb].
  enough (H : run_loop cycles g = None) by now rewrite H.
  revert g Hm Hr. induction cycles as [|cycles IH]; intros g Hm Hr;
    cbn [run_loop]; rewrite Hr; [reflexivity|].
  rewrite Hm. now apply IH.
Qed.

Lemma random_mode_runs_on_witness :
  use_csv_mode_ (make BlockingQueue.new 0 "" None (fun n => Z.of_nat n)) = false /\
  running_ (make BlockingQueue.new 0 "" None (fun n => Z.of_nat n)) = true /\
  run 5 (make BlockingQueue.new 0 "" None (fun n => Z.of_nat n)) = None.
Proof.
  split; [reflexivity|]. split; [reflexivity|].
  apply random_mode_runs_on; reflexivity.
Defined.

Lemma cells_values_within (m : Z) (cells : list string) :
  forall count : Z,
    (count + Z.of_nat (List.length cells) <= m)%Z ->
    cells_values m cells count = flat_map parsed_cell cells.
Proof.
  induction cells as [|cell cells IH]; intros count H; [reflexivity|].
  cbn [cells_values flat_map]. cbn [List.length] in H.
  rewrite IH by lia. f_equal. unfold cell_values, parsed_cell.
  destruct (Z.ltb_spec count m); [reflexivity|lia].
Qed.

(** X11.  A short row is warned about but not rejected: with [m > 0], a
    row of at most [m] cells contributes every cell that parses, in
    order, and the warning is printed if and only if it has fewer
    than [m] cells. *)
Theorem short_rows_are_used_in_full :
  forall (cells : list string) (g : state),
    (0 < m_ g)%Z ->
    (Z.of_nat (List.length cells) <= m_ g)%Z ->
    current_row_values_ (read_row_cells cells g) = flat_map parsed_cell cells /\
    row_warnings (read_row_cells cells g)
      = row_warnings g ++
        (if (Z.of_nat (List.length cells) =? m_ g)%Z then []
         else [WarnFewerColumns (line_number_ g + 1) (m_ g)
                                (Z.of_nat (List.length cells))]).
Proof.
  intros cells g Hm Hlen.
  destruct (read_row_cells_spec cells g) as (_ & _ & _ & _ & _ & V & W).
  rewrite V, W. split; [apply cells_values_within; lia|].
  destruct (Z.ltb_spec 0 (m_ g)); [|lia]. cbn [andb].
  destruct (Z.ltb_spec (Z.of_nat (List.length cells)) (m_ g));
    destruct (Z.eqb_spec (Z.of_nat (List.length cells)) (m_ g));
    try lia; reflexivity.
Qed.

Lemma short_rows_are_used_in_full_witness :
  (0 < m_ (csv_generator 5 ""))%Z /\
  (Z.of_nat (List.length ["1"; "x"; "3"]%string) <= m_ (csv_generator 5 ""))%Z /\
  current_row_values_ (read_row_cells ["1"; "x"; "3"]%string (csv_generator 5 ""))
    = [1; 3]%Z.
Proof.
  split; [reflexivity|]. split; [cbn; lia|].
  apply (proj1 (short_rows_are_used_in_full ["1"; "x"; "3"]%string
                  (csv_generator 5 "") eq_refl ltac:(cbn; lia))).
Defined.

Lemma leftover_cons2 (val1 val2 : uint8) (rest : list uint8) :
  leftover (val1 :: val2 :: rest) = leftover rest.
Proof.
  unfold leftover. cbn [List.length].
  change (Nat.odd (S (S (List.length rest)))) with (Nat.odd (List.length rest)).
  destruct rest as [|x rest]; [reflexivity|].
  destruct (Nat.odd (List.length (x :: rest))); reflexivity.
Qed.

End GeneratorBeyond.

(** ** The pipeline as a whole *)

Section PipelineBeyond.
Import Main.

Lemma same_results_refl (st : FilterThreshold.state) : same_results st st.
Proof. now split. Qed.

Lemma same_results_trans (st1 st2 st3 : FilterThreshold.state) :
  same_results st1 st2 -> same_results st2 st3 -> same_results st1 st3.
Proof. intros [A B] [C D]. split; congruence. Qed.

Lemma same_results_print (l : FilterThreshold.cout_line) (st : FilterThreshold.state) :
  FilterThreshold.decisions_of [l] = [] ->
  same_results (FilterThreshold.print l st) st.
Proof.
  intros H. split; [reflexivity|].
  rewrite decisions_print, H. apply app_nil_r.
Qed.

Lemma ingest_same_results (tv : float) (v : uint8) (st1 st2 : FilterThreshold.state) :
  same_results st1 st2 ->
  same_results (FilterThreshold.ingest tv v st1) (FilterThreshold.ingest tv v st2).
Proof.
  intros [Hb Hd]. unfold FilterThreshold.ingest, FilterThreshold.push_back.
  cbn [FilterThreshold.data_buffer_]. rewrite Hb.
  destruct (Nat.leb_spec FilterThreshold.WINDOW_SIZE
              (List.length (FilterThreshold.data_buffer_ st2 ++ [v]))) as [Hfull|_].
  - destruct (process_element_full tv
                {| FilterThreshold.data_buffer_ := FilterThreshold.data_buffer_ st2 ++ [v];
                   FilterThreshold.cout := FilterThreshold.cout st1 |} Hfull) as [B1 C1].
    destruct (process_element_full tv
                {| FilterThreshold.data_buffer_ := FilterThreshold.data_buffer_ st2 ++ [v];
                   FilterThreshold.cout := FilterThreshold.cout st2 |} Hfull) as [B2 C2].
    cbn [FilterThreshold.data_buffer_ FilterThreshold.cout] in B1, B2, C1, C2.
    split; [now rewrite B1, B2|].
    unfold FilterThreshold.decisions in *. rewrite C1, C2, !decisions_of_app.
    now rewrite Hd.
  - split; [reflexivity|exact Hd].
Qed.

Lemma samples_of_app (xs ys : list sample_pair) :
  DataGenerator.samples_of (xs ++ ys)
  = DataGenerator.samples_of xs ++ DataGenerator.samples_of ys.
Proof.
  induction xs as [|[first second] xs IH]; [reflexivity|].
  cbn [app DataGenerator.samples_of]. now rewrite IH.
Qed.

Lemma conserved_initial (tv : float) (to_push : list sample_pair) :
  conserved tv to_push (initial to_push).
Proof. exists []. split; [reflexivity|apply same_results_refl]. Qed.

Lemma conserved_step (tv : float) (to_push : list sample_pair)
      (who : thread) (s s' : system) :
  conserved tv to_push s -> step tv who s = Some s' -> conserved tv to_push s'.
Proof.
  destruct s as [p q flag c k ft]. unfold conserved, step.
  cbn [producer data_queue producer_is_finished coordinator consumer filter_thresh].
  intros (received & Hall & Hres) E.
  destruct who.
  - destruct p as [[|x rest]|]; [| |discriminate]; injection E as <-;
      exists received; cbn in *; split; try assumption.
    unfold BlockingQueue.push. now rewrite <- app_assoc.
  - destruct k; cbn in E.
    + destruct q as [|[first second] q]; injection E as <-; cbn in *.
      * exists received. now split.
      * exists (received ++ [(first, second)]). split.
        { now rewrite <- app_assoc. }
        rewrite samples_of_app. unfold FilterThreshold.ingest_all.
        rewrite fold_left_app. cbn [DataGenerator.samples_of fold_left].
        now apply ingest_same_results, ingest_same_results.
    + destruct flag; injection E as <-; exists received; now split.
    + destruct q as [|x q]; injection E as <-; exists received; cbn in *;
        (split; [assumption|]); [|assumption].
      eapply same_results_trans; [|exact Hres].
      now apply same_results_print.
    + injection E as <-. exists received. now split.
    + injection E as <-. exists received. cbn in *. split; [assumption|].
      destruct Hres as [Hb Hd].
      destruct (finish_spec tv ft) as [Fb Fd].
      { rewrite Hb. apply ingest_all_init_length. }
      split; congruence.
    + discriminate.
  - destruct c; cbn in E.
    + destruct p; [discriminate|]. injection E as <-. exists received. now split.
    + injection E as <-. exists received. now split.
    + destruct k; try discriminate. injection E as <-. exists received. now split.
    + discriminate.
Qed.

Lemma conserved_exec (tv : float) (to_push : list sample_pair) (schedule : list thread) :
  forall s : system, conserved tv to_push s -> conserved tv to_push (exec tv schedule s).
Proof.
  induction schedule as [|who schedule IH]; intros s H; [exact H|].
  cbn [exec]. destruct (step tv who s) as [s'|] eqn:E.
  - apply IH. now apply conserved_step with who s.
  - now apply IH.
Qed.

(** Out of its loop, the consumer has seen everything. *)
Lemma past_loop_results (tv : float) (to_push : list sample_pair)
      (schedule : list thread) :
  past_loop (consumer (exec tv schedule (initial to_push))) = true ->
  same_results (filter_thresh (exec tv schedule (initial to_push)))
    (FilterThreshold.ingest_all tv (DataGenerator.samples_of to_push)
                                FilterThreshold.init).
Proof.
  set (s := exec tv schedule (initial to_push)).
  pose proof (conserved_exec tv to_push schedule _ (conserved_initial tv to_push))
    as (received & Hall & Hres).
  pose proof (handshake_exec tv schedule _ (handshake_initial to_push))
    as (H1 & H2 & _ & H4 & _).
  fold s in Hall, Hres, H1, H2, H4.
  intros Hk. destruct (H4 Hk) as [Hf Hq]. specialize (H1 (H2 Hf)).
  assert (received = to_push) as ->; [|exact Hres].
  rewrite Hq in Hall. destruct (producer s); [discriminate|].
  cbn in Hall. now rewrite app_nil_r in Hall.
Qed.

(** X13.  Whatever the interleaving of the three threads, no pair is
    lost, duplicated or reordered between producer and filter: at any
    moment the decisions printed are those for the samples of the
    pairs received so far, and these pairs, the queue and what the
    producer has yet to push make up the producer's sequence.  Once the
    consumer is out of its loop it has decided on all samples the
    producer pushed, exactly as if they had been fed to the filter in
    one go, and its buffer holds the last eight of them. *)
Theorem pipeline_end_to_end :
  forall (tv : float) (to_push : list sample_pair) (schedule : list thread),
    let s := exec tv schedule (initial to_push) in
    (exists received : list sample_pair,
        received ++ data_queue s ++ still_to_push (producer s) = to_push /\
        FilterThreshold.decisions (filter_thresh s)
          = FilterThreshold.decisions
              (FilterThreshold.ingest_all tv (DataGenerator.samples_of received)
                                          FilterThreshold.init)) /\
    (past_loop (consumer s) = true ->
     FilterThreshold.decisions (filter_thresh s)
       = map (fun j => FilterThreshold.offline_decision tv
                         (DataGenerator.samples_of to_push) (j + 4))
             (seq 0 (List.length (DataGenerator.samples_of to_push) - 8)) /\
     FilterThreshold.data_buffer_ (filter_thresh s)
       = skipn (List.length (DataGenerator.samples_of to_push) - 8)
               (DataGenerator.samples_of to_push)).
Proof.
  intros tv to_push schedule s.
  split.
  - pose proof (conserved_exec tv to_push schedule _ (conserved_initial tv to_push))
      as (received & Hall & _ & Hd).
    exists received. now split.
  - intros Hk. destruct (past_loop_results tv to_push schedule Hk) as [Hb Hd].
    destruct (ingest_all_init tv (DataGenerator.samples_of to_push)) as [Ib Id].
    fold s in Hb, Hd. split; congruence.
Qed.

Lemma pipeline_end_to_end_witness :
  past_loop
    (consumer
       (exec 1275%float
          ([Producer; Producer; Coordinator; Coordinator] ++ repeat Consumer 7)
          (initial [(1, 2)%Z]))) = true /\
  FilterThreshold.data_buffer_
    (filter_thresh
       (exec 1275%float
          ([Producer; Producer; Coordinator; Coordinator] ++ repeat Consumer 7)
          (initial [(1, 2)%Z]))) = [1; 2]%Z.
Proof.
  split; [reflexivity|].
  apply (proj2 (pipeline_end_to_end 1275%float [(1, 2)%Z]
           ([Producer; Producer; Coordinator; Coordinator] ++ repeat Consumer 7))).
  reflexivity.
Defined.

(** X14.  The pipeline cannot get stuck: in any state in which [main]
    has not come to its end, some thread can take a step.  And the end
    is the end: once [main] is through, neither the producer nor the
    consumer has anything left to do. *)
Theorem no_deadlock :
  (forall (tv : float) (s : system),
      coordinator s <> SimulationComplete ->
      exists (who : thread) (s' : system), step tv who s = Some s')
  /\ (forall (tv : float) (to_push : list sample_pair) (schedule : list thread)
             (who : thread),
         let s := exec tv schedule (initial to_push) in
         coordinator s = SimulationComplete -> step tv who s = None).
Proof.
  split.
  - intros tv s Hc. destruct s as [p q flag c k ft]. cbn in Hc.
    destruct p as [[|x rest]|].
    + exists Producer. eexists. reflexivity.
    + exists Producer. eexists. reflexivity.
    + destruct k;
        try (exists Consumer; unfold step; cbn;
             try destruct q as [|[first second] q]; try destruct flag;
             eexists; reflexivity).
      exists Coordinator. destruct c; try (eexists; reflexivity).
      now contradiction Hc.
  - intros tv to_push schedule who s Hc.
    pose proof (handshake_exec tv schedule _ (handshake_initial to_push))
      as (H1 & _ & _ & _ & _ & H6).
    fold s in H1, H6. specialize (H6 Hc). rewrite Hc in H1. specialize (H1 eq_refl).
    destruct s as [p q flag c k ft]. cbn in *. subst c k.
    destruct p; [discriminate|]. now destruct who.
Qed.

Lemma published_initial (to_push : list sample_pair) : published (initial to_push).
Proof. unfold published, initial; cbn. intros [H|H]; discriminate. Qed.

Lemma published_step (tv : float) (who : thread) (s s' : system) :
  published s -> step tv who s = Some s' -> published s'.
Proof.
  destruct s as [p q flag c k ft]. unfold published, step.
  cbn [producer data_queue producer_is_finished coordinator consumer filter_thresh].
  intros H E. destruct who.
  - destruct p as [[|x rest]|]; [| |discriminate]; injection E as <-; exact H.
  - destruct k; cbn in E;
      try destruct q as [|[first second] q]; try destruct flag;
      try discriminate; injection E as <-; exact H.
  - destruct c; cbn in E.
    + destruct p; [discriminate|]. injection E as <-. cbn.
      intros [F|F]; discriminate.
    + injection E as <-. reflexivity.
    + destruct k; try discriminate. injection E as <-. cbn. intros _. now apply H; left.
    + discriminate.
Qed.

Lemma published_exec (tv : float) (schedule : list thread) :
  forall s : system, published s -> published (exec tv schedule s).
Proof.
  induction schedule as [|who schedule IH]; intros s H; [exact H|].
  cbn [exec]. destruct (step tv who s) as [s'|] eqn:E.
  - apply IH. now apply published_step with tv who s.
  - now apply IH.
Qed.

(** Left alone, the producer pushes all it has and returns. *)
Lemma producer_finishes (tv : float) (to_push : list sample_pair) :
  forall s : system,
    still_to_push (producer s) = to_push ->
    let s1 := exec tv (repeat Producer (S (List.length to_push))) s in
    producer s1 = ProducerExited /\
    data_queue s1 = data_queue s ++ to_push /\
    producer_is_finished s1 = producer_is_finished s /\
    coordinator s1 = coordinator s /\
    consumer s1 = consumer s.
Proof.
  induction to_push as [|p rest IH]; intros s H; cbn zeta.
  - destruct s as [[[|x l]|] q flag c k ft]; cbn in H; try discriminate;
      cbn; rewrite app_nil_r; now repeat split.
  - destruct s as [[[|x l]|] q flag c k ft]; cbn in H; try discriminate.
    injection H as -> ->.
    change (repeat Producer (S (List.length (p :: rest))))
      with (Producer :: repeat Producer (S (List.length rest))).
    rewrite (exec_cons tv Producer _ _
               (mkSystem (ProducerRunning rest) (BlockingQueue.push p q) flag c k ft))
      by reflexivity.
    destruct (IH (mkSystem (ProducerRunning rest) (BlockingQueue.push p q) flag c k ft)
                 eq_refl) as (A & B & C & D & E).
    cbn zeta in *. rewrite A, B, C, D, E. cbn. unfold BlockingQueue.push.
    rewrite <- app_assoc. now repeat split.
Qed.

(** With the producer gone, two steps of [main] are enough to have the
    flag set. *)
Lemma coordinator_publishes (tv : float) (s : system) :
  producer s = ProducerExited ->
  published s ->
  (coordinator s = SimulationComplete -> consumer s = ConsumerExited) ->
  let s2 := exec tv [Coordinator; Coordinator] s in
  producer_is_finished s2 = true /\
  (coordinator s2 = JoinConsumer \/
   coordinator s2 = SimulationComplete /\ consumer s2 = ConsumerExited) /\
  consumer s2 = consumer s /\
  data_queue s2 = data_queue s.
Proof.
  destruct s as [p q flag c k ft]. unfold published. cbn.
  intros -> Hpub Hdone.
  destruct c; cbn.
  - destruct k; cbn; repeat split; auto.
  - destruct k; cbn; repeat split; auto.
  - rewrite Hpub by auto. destruct k; cbn; repeat split; auto.
  - rewrite Hpub by auto. repeat split; auto.
Qed.

(** With the flag set and nobody pushing, the consumer returns within
    [consumer_steps_left] steps. *)
Lemma consumer_finishes (tv : float) (n : nat) :
  forall s : system,
    producer_is_finished s = true ->
    (consumer_steps_left (consumer s) (List.length (data_queue s)) <= n)%nat ->
    consumer (exec tv (repeat Consumer n) s) = ConsumerExited /\
    coordinator (exec tv (repeat Consumer n) s) = coordinator s.
Proof.
  induction n as [|n IH]; intros s Hf Hn.
  - destruct s as [p q flag c k ft]. cbn in *.
    destruct k, q; cbn in Hn; try lia; now split.
  - destruct s as [p q flag c k ft]. cbn in Hf. subst flag.
    cbn [repeat exec]. unfold step.
    cbn [producer data_queue producer_is_finished coordinator consumer filter_thresh].
    destruct k; cbn in Hn.
    + destruct q as [|[first second] q]; cbn [BlockingQueue.try_pop];
        match goal with
        | |- context [exec tv _ ?s'] =>
            destruct (IH s') as [A B]; [reflexivity|cbn in *; lia|]
        end; now split.
    + match goal with
      | |- context [exec tv _ ?s'] =>
          destruct (IH s') as [A B];
          [reflexivity|cbn in *; destruct q; cbn in *; lia|]
      end; now split.
    + destruct q as [|x q]; cbn [BlockingQueue.empty];
        match goal with
        | |- context [exec tv _ ?s'] =>
            destruct (IH s') as [A B]; [reflexivity|cbn in *; lia|]
        end; now split.
    + match goal with
      | |- context [exec tv _ ?s'] =>
          destruct (IH s') as [A B]; [reflexivity|cbn in *; lia|]
      end; now split.
    + match goal with
      | |- context [exec tv _ ?s'] =>
          destruct (IH s') as [A B]; [reflexivity|cbn in *; lia|]
      end; now split.
    + destruct (IH (mkSystem p q true c ConsumerExited ft)) as [A B];
        [reflexivity|cbn; lia|]. now split.
Qed.

(** X15.  The pipeline can always be brought to its end: from any state
    the three threads can reach, letting the producer finish, then
    [main] set the flag, then the consumer work off the queue, then
    [main] join it, ends in the final state of [main]; the schedule
    [finishing_schedule] does it, in a number of steps linear in the
    pairs not yet received. *)
Theorem pipeline_can_always_finish :
  forall (tv : float) (to_push : list sample_pair) (schedule : list thread),
    let s := exec tv schedule (initial to_push) in
    coordinator (exec tv (finishing_schedule s) s) = SimulationComplete /\
    consumer (exec tv (finishing_schedule s) s) = ConsumerExited.
Proof.
  intros tv to_push schedule s.
  pose proof (handshake_exec tv schedule _ (handshake_initial to_push)) as Hh.
  pose proof (published_exec tv schedule _ (published_initial to_push)) as Hp.
  fold s in Hh, Hp. unfold finishing_schedule. rewrite !exec_app.
  destruct (producer_finishes tv (still_to_push (producer s)) s eq_refl)
    as (P1 & Q1 & F1 & C1 & K1).
  set (s1 := exec tv (repeat Producer (S (List.length (still_to_push (producer s))))) s)
    in *.
  assert (Hh1 : handshake s1) by now apply handshake_exec.
  assert (Hp1 : published s1) by now apply published_exec.
  destruct (coordinator_publishes tv s1 P1 Hp1) as (F2 & C2 & K2 & Q2).
  { apply Hh1. }
  set (s2 := exec tv [Coordinator; Coordinator] s1) in *.
  destruct (consumer_finishes tv
              (consumer_steps_left (consumer s)
                 (List.length (data_queue s) + List.length (still_to_push (producer s))))
              s2 F2) as (K3 & C3).
  { rewrite K2, K1, Q2, Q1, length_app. lia. }
  set (s3 := exec tv (repeat Consumer _) s2) in *.
  rewrite <- C3 in C2.
  destruct s3 as [p q flag c k ft]. cbn in K3, C2. subst k.
  destruct C2 as [-> | [-> _]]; cbn; now split.
Qed.

Lemma no_deadlock_witness :
  coordinator (initial [(1, 2)%Z]) <> SimulationComplete /\
  exists (who : thread) (s' : system), step 1275%float who (initial [(1, 2)%Z]) = Some s'.
Proof.
  split; [discriminate|].
  apply (proj1 no_deadlock 1275%float (initial [(1, 2)%Z])). discriminate.
Defined.

Lemma run_loop_more_cycles (cycles : nat) :
  forall (g g' : DataGenerator.state) (more : nat),
    DataGenerator.run_loop cycles g = Some g' ->
    DataGenerator.run_loop (cycles + more) g = Some g'.
Proof.
  induction cycles as [|cycles IH]; intros g g' more E;
    cbn [DataGenerator.run_loop] in E;
    destruct (DataGenerator.running_ g) eqn:R; try discriminate;
    try (injection E as <-; now apply run_loop_stopped).
  cbn [Nat.add DataGenerator.run_loop]. rewrite R.
  destruct (DataGenerator.use_csv_mode_ g).
  - destruct (DataGenerator.read_csv_pair g) as [[|] g1]; now apply IH.
  - now apply IH.
Qed.

(** What the generator has pushed when [run] returns on a CSV file. *)
Lemma csv_generator_queue (m : Z) (content : string) (cycles : nat)
      (g : DataGenerator.state) :
  DataGenerator.run cycles (DataGenerator.csv_generator m content) = Some g ->
  DataGenerator.output_queue_ g
  = DataGenerator.pairs_of (DataGenerator.table_values m content).
Proof.
  intros E. unfold DataGenerator.run in E.
  change (DataGenerator.use_csv_mode_ (DataGenerator.csv_generator m content))
    with true in E.
  change (DataGenerator.is_open
            (DataGenerator.csv_file_stream_ (DataGenerator.csv_generator m content)))
    with true in E.
  cbn [negb andb] in E.
  destruct (DataGenerator.run_loop cycles (DataGenerator.csv_generator m content))
    as [g1|] eqn:E1; [|discriminate].
  set (more := S (List.length (DataGenerator.table_values m content))).
  apply (run_loop_more_cycles cycles _ g1 more) in E1.
  destruct (run_loop_csv (cycles + more) (DataGenerator.csv_generator m content))
    as (g2 & E2 & Q & _); try reflexivity.
  - unfold DataGenerator.stream_ok. cbn. repeat split; discriminate.
  - cbn. lia.
  - change (DataGenerator.pending (DataGenerator.csv_generator m content))
      with (DataGenerator.table_values m content). unfold more. lia.
  - rewrite E1 in E2. injection E2 as <-. injection E as <-.
    change (DataGenerator.pending (DataGenerator.csv_generator m content))
      with (DataGenerator.table_values m content) in Q.
    destruct (DataGenerator.is_open (DataGenerator.csv_file_stream_ g1));
      cbn; exact Q.
Qed.

Lemma samples_of_length (pairs : list sample_pair) :
  List.length (DataGenerator.samples_of pairs) = (2 * List.length pairs)%nat.
Proof.
  induction pairs as [|[first second] pairs IH]; [reflexivity|].
  cbn [DataGenerator.samples_of List.length]. rewrite IH. lia.
Qed.

Lemma samples_of_pairs_of (values : list uint8) :
  DataGenerator.samples_of (DataGenerator.pairs_of values)
  ++ DataGenerator.leftover values = values.
Proof.
  enough (H : (DataGenerator.samples_of (DataGenerator.pairs_of values)
               ++ DataGenerator.leftover values = values) /\
              forall v, DataGenerator.samples_of (DataGenerator.pairs_of (v :: values))
                        ++ DataGenerator.leftover (v :: values)
                        = v :: values) by apply H.
  induction values as [|x values [IH1 IH2]]; [now split|].
  split; [apply IH2|]. intros v.
  cbn [DataGenerator.pairs_of DataGenerator.samples_of]. rewrite leftover_cons2.
  cbn [app]. now rewrite IH1.
Qed.

(** X12.  Pairing loses nothing but a last value without partner: the
    pairs the generator has pushed when [run] returns on a CSV file,
    taken apart again as the consumer does (first, then second), are
    the values of the table in order, up to that one value. *)
Theorem file_values_survive_pairing :
  forall (m : Z) (content : string) (cycles : nat) (g : DataGenerator.state),
    DataGenerator.run cycles (DataGenerator.csv_generator m content) = Some g ->
    DataGenerator.samples_of (DataGenerator.output_queue_ g)
    ++ DataGenerator.leftover (DataGenerator.table_values m content)
    = DataGenerator.table_values m content.
Proof.
  intros m content cycles g E.
  rewrite (csv_generator_queue m content cycles g E).
  apply samples_of_pairs_of.
Qed.

Lemma file_values_survive_pairing_witness :
  exists g : DataGenerator.state,
    DataGenerator.run 3 (DataGenerator.csv_generator 0 "1,2,3") = Some g /\
    DataGenerator.samples_of (DataGenerator.output_queue_ g) ++ [3%Z] = [1; 2; 3]%Z.
Proof.
  destruct (DataGenerator.run 3 (DataGenerator.csv_generator 0 "1,2,3")) as [g|] eqn:E; [|vm_compute in E; discriminate E].
  exists g. split; [reflexivity|].
  exact (file_values_survive_pairing 0%Z _ 3%nat g E).
Defined.

(** X16.  From file to decisions.  Let the generator read a CSV file to
    its end; whatever the interleaving of the threads that hand its
    pairs to the filter, once the consumer is out of its loop the
    decisions printed are the window decisions on the values of the
    table, one for each index [4 .. 2 * (n / 2) - 5] in order, where
    [n] is the number of values: a last value without partner takes
    no part in any window. *)
Theorem csv_file_to_decisions :
  forall (tv : float) (m : Z) (content : string) (cycles : nat)
         (g : DataGenerator.state) (schedule : list thread),
    DataGenerator.run cycles (DataGenerator.csv_generator m content) = Some g ->
    let values := DataGenerator.table_values m content in
    let s := exec tv schedule (initial (DataGenerator.output_queue_ g)) in
    past_loop (consumer s) = true ->
    FilterThreshold.decisions (filter_thresh s)
    = map (fun j => FilterThreshold.offline_decision tv values (j + 4))
          (seq 0 (2 * Nat.div2 (List.length values) - 8)).
Proof.
  intros tv m content cycles g schedule E values s Hk.
  pose proof (csv_generator_queue m content cycles g E) as Q. fold values in Q.
  unfold s in *. rewrite Q in *.
  destruct (past_loop_results tv _ schedule Hk) as [_ Hd]. rewrite Hd.
  destruct (ingest_all_init tv
              (DataGenerator.samples_of (DataGenerator.pairs_of values))) as [_ Id].
  rewrite Id, samples_of_length, pairs_of_length.
  apply map_ext_in. intros j Hj. apply in_seq in Hj.
  transitivity
    (FilterThreshold.offline_decision tv
       (DataGenerator.samples_of (DataGenerator.pairs_of values)
        ++ DataGenerator.leftover values) (j + 4)).
  - symmetry. apply offline_decision_app.
    rewrite samples_of_length, pairs_of_length. lia.
  - now rewrite samples_of_pairs_of.
Qed.

Lemma csv_file_to_decisions_witness :
  exists g : DataGenerator.state,
    DataGenerator.run 7 (DataGenerator.csv_generator 0 "1,2,3,4,5,6,7,8,9,10,11")
      = Some g /\
    List.length
      (FilterThreshold.decisions
         (filter_thresh
            (exec 1275%float
               (repeat Producer 6 ++ [Coordinator; Coordinator] ++ repeat Consumer 14)
               (initial (DataGenerator.output_queue_ g))))) = 2%nat.
Proof.
  destruct (DataGenerator.run 7 (DataGenerator.csv_generator 0 "1,2,3,4,5,6,7,8,9,10,11"))
    as [g|] eqn:E; [|vm_compute in E; discriminate E].
  exists g. split; [reflexivity|].
  rewrite (csv_file_to_decisions 1275%float 0%Z "1,2,3,4,5,6,7,8,9,10,11"%string
             7%nat g
             (repeat Producer 6 ++ [Coordinator; Coordinator] ++ repeat Consumer 14) E).
  - now rewrite length_map, length_seq.
  - vm_compute in E. injection E as <-. reflexivity.
Defined.

End PipelineBeyond.
